(** * S3FileSystem: a shallow embedding of be/src/io/fs/s3_file_system.cpp

    The adapter exposes file-system operations over an S3-compatible object
    store.  Each C++ member function becomes a Rocq function of the same
    name.  Calls to the AWS SDK go through an abstract client whose answers
    may depend on, and change, a backend state; every call is also logged,
    so that statements about which requests were issued, and in which order,
    can be made about the log. *)

From Stdlib Require Import String Ascii List ZArith Lia Bool DecimalString.
Import ListNotations.
Local Open Scope list_scope.
Local Open Scope string_scope.

(** ** std::string operations used by the source *)

Module Str.

(** [s.substr(pos)]: the suffix from [pos]; throws std::out_of_range when
    [pos > s.size()], which is [None] here. *)
Fixpoint substr (s : string) (pos : nat) : option string :=
  match pos, s with
  | O, _ => Some s
  | S _, EmptyString => None
  | S pos', String _ s' => substr s' pos'
  end.

(** Pointer arithmetic [s.data() + n] for [n <= s.size()]: the characters
    from offset [n] on (the terminating NUL is not part of the model). *)
Fixpoint advance (s : string) (n : nat) : string :=
  match n, s with
  | O, _ => s
  | S _, EmptyString => EmptyString
  | S n', String _ s' => advance s' n'
  end.

(** What a [const char*] denotes when it is formatted: the characters up to
    the first NUL. *)
Fixpoint c_str (s : string) : string :=
  match s with
  | EmptyString => EmptyString
  | String c s' => if Ascii.eqb c zero then EmptyString else String c (c_str s')
  end.

(** [s.front()] and [s.back()], on a non-empty string. *)
Definition front (s : string) : option ascii :=
  match s with
  | EmptyString => None
  | String c _ => Some c
  end.

Fixpoint back (s : string) : option ascii :=
  match s with
  | EmptyString => None
  | String c EmptyString => Some c
  | String _ s' => back s'
  end.

(** [s.pop_back()], on a non-empty string. *)
Fixpoint pop_back (s : string) : string :=
  match s with
  | EmptyString => EmptyString
  | String _ EmptyString => EmptyString
  | String c s' => String c (pop_back s')
  end.

(** [s.push_back(c)]. *)
Definition push_back (s : string) (c : ascii) : string :=
  s ++ String c EmptyString.

Definition empty (s : string) : bool :=
  match s with
  | EmptyString => true
  | String _ _ => false
  end.

(** [StringPiece::starts_with]: [x] is no longer than [s] and the first
    [x.size()] bytes agree. *)
Definition starts_with (s x : string) : bool := String.prefix x s.

Definition is_char (o : option ascii) (c : ascii) : bool :=
  match o with
  | Some d => Ascii.eqb d c
  | None => false
  end.

Definition nul_free (s : string) : Prop := c_str s = s.

End Str.

(** ** fmt::format

    Every replacement field in the source is a plain [{}]; the arguments are
    strings.  An argument is copied as it is, it is not scanned again. *)
Fixpoint format (fmt : string) (args : list string) : string :=
  match fmt with
  | EmptyString => EmptyString
  | String c rest =>
      match rest with
      | String d rest' =>
          if (Ascii.eqb c "{" && Ascii.eqb d "}")%bool then
            match args with
            | a :: args' => a ++ format rest' args'
            | [] => format rest' []
            end
          else String c (format rest args)
      | EmptyString => String c EmptyString
      end
  end.

(** ** common/status.h *)

Inductive Status : Type :=
| OK
| InternalError (msg : string)
| IOError (msg : string)
| InvalidArgument (msg : string)
| NotSupported (msg : string).

Definition Status_ok (s : Status) : bool :=
  match s with
  | OK => true
  | _ => false
  end.

(** ** File-system identity *)

(** [Path] is std::filesystem::path; only its native string is used. *)
Definition Path : Type := string.

(** [p / q] on a POSIX host: an absolute [q] replaces [p]; otherwise a
    separator is added when [p] has a file name, and [q] is appended. *)
Definition Path_append (p q : Path) : Path :=
  if Str.is_char (Str.front q) "/" then q
  else if (Str.empty p || Str.is_char (Str.back p) "/")%bool then p ++ q
  else p ++ "/" ++ q.

(** The fields of [S3Conf] (util/s3_util.h) that the file system reads. *)
Record S3Conf : Type := {
  ak : string;
  sk : string;
  endpoint : string;
  region : string;
  bucket : string;
  prefix : string
}.

Definition with_prefix (c : S3Conf) (p : string) : S3Conf :=
  {| ak := ak c; sk := sk c; endpoint := endpoint c; region := region c;
     bucket := bucket c; prefix := p |}.

(** ** The AWS SDK, as far as the file system uses it *)

Module Aws.

Definition HttpResponseCode : Type := Z.
Definition REQUEST_NOT_MADE : HttpResponseCode := (-1)%Z.
Definition NOT_FOUND : HttpResponseCode := 404%Z.

Record AWSError : Type := {
  GetResponseCode : HttpResponseCode;
  GetMessage : string
}.

(** A default-constructed error: what [GetError()] gives on a success. *)
Definition no_error : AWSError :=
  {| GetResponseCode := REQUEST_NOT_MADE; GetMessage := EmptyString |}.

(** [Aws::Utils::Outcome<R, E>] stores a result, an error and a flag. *)
Record Outcome (R : Type) : Type := {
  IsSuccess : bool;
  GetResult : R;
  GetError : AWSError
}.
Arguments IsSuccess {R} _.
Arguments GetResult {R} _.
Arguments GetError {R} _.

Definition success {R : Type} (r : R) : Outcome R :=
  {| IsSuccess := true; GetResult := r; GetError := no_error |}.

Definition failure {R : Type} (dflt : R) (e : AWSError) : Outcome R :=
  {| IsSuccess := false; GetResult := dflt; GetError := e |}.

Record HeadObjectRequest : Type := {
  head_bucket : string;
  head_key : string
}.

Record HeadObjectResult : Type := {
  GetContentLength : Z
}.

Record DeleteObjectRequest : Type := {
  delete_bucket : string;
  delete_key : string
}.

Record DeleteObjectResult : Type := {
  GetDeleteMarker : bool
}.

Record ObjectIdentifier : Type := {
  id_key : string
}.

Record Delete : Type := {
  GetObjects : list ObjectIdentifier;
  GetQuiet : bool
}.

Definition no_delete : Delete := {| GetObjects := []; GetQuiet := false |}.

Record DeleteObjectsRequest : Type := {
  objects_bucket : string;
  GetDelete : Delete
}.

Definition SetBucket (r : DeleteObjectsRequest) (b : string) : DeleteObjectsRequest :=
  {| objects_bucket := b; GetDelete := GetDelete r |}.

Definition SetDelete (r : DeleteObjectsRequest) (d : Delete) : DeleteObjectsRequest :=
  {| objects_bucket := objects_bucket r; GetDelete := d |}.

(** [Aws::S3::Model::Error]: one entry of a bulk delete's error list. *)
Record Error : Type := {
  Error_GetKey : string;
  Error_GetMessage : string
}.

Record DeleteObjectsResult : Type := {
  GetErrors : list Error
}.

Record Object : Type := {
  GetKey : string;
  GetSize : Z
}.

Record ListObjectsV2Request : Type := {
  list_bucket : string;
  list_prefix : string;
  list_continuation_token : option string
}.

Definition SetContinuationToken (r : ListObjectsV2Request) (t : string)
  : ListObjectsV2Request :=
  {| list_bucket := list_bucket r; list_prefix := list_prefix r;
     list_continuation_token := Some t |}.

Record ListObjectsV2Result : Type := {
  GetContents : list Object;
  GetIsTruncated : bool;
  GetNextContinuationToken : string
}.

Inductive TransferStatus : Type :=
| EXACT_OBJECT_ALREADY_EXISTS
| NOT_STARTED
| IN_PROGRESS
| CANCELED
| FAILED
| COMPLETED
| ABORTED.

Definition is_COMPLETED (s : TransferStatus) : bool :=
  match s with
  | COMPLETED => true
  | _ => false
  end.

(** A transfer handle is named by the number the transfer manager gave it;
    its status and last error live in the backend. *)
Definition TransferHandle : Type := nat.

Section Client.

(** The state of the object store and of the transfers in flight. *)
Variable B : Type.

Record TransferManager : Type := {
  UploadFile : string -> string -> string -> string -> B -> TransferHandle * B;
  WaitUntilFinished : TransferHandle -> B -> B;
  GetStatus : TransferHandle -> B -> TransferStatus;
  GetLastError : TransferHandle -> B -> AWSError
}.

Record S3Client : Type := {
  HeadObject : HeadObjectRequest -> B -> Outcome HeadObjectResult * B;
  DeleteObject : DeleteObjectRequest -> B -> Outcome DeleteObjectResult * B;
  DeleteObjects : DeleteObjectsRequest -> B -> Outcome DeleteObjectsResult * B;
  ListObjectsV2 : ListObjectsV2Request -> B -> Outcome ListObjectsV2Result * B;
  (** [Aws::Transfer::TransferManager::Create] with [s3Client] set to this
      client. *)
  TransferManager_Create : TransferManager
}.

End Client.

Arguments UploadFile {B} _ _ _ _ _ _.
Arguments WaitUntilFinished {B} _ _ _.
Arguments GetStatus {B} _ _ _.
Arguments GetLastError {B} _ _ _.
Arguments HeadObject {B} _ _ _.
Arguments DeleteObject {B} _ _ _.
Arguments DeleteObjects {B} _ _ _.
Arguments ListObjectsV2 {B} _ _ _.
Arguments TransferManager_Create {B} _.

(** One entry of the log of SDK calls. *)
Inductive Call : Type :=
| Call_HeadObject (r : HeadObjectRequest)
| Call_DeleteObject (r : DeleteObjectRequest)
| Call_DeleteObjects (r : DeleteObjectsRequest)
| Call_ListObjectsV2 (r : ListObjectsV2Request)
| Call_UploadFile (local bucket key content_type : string)
| Call_WaitUntilFinished (h : TransferHandle).

End Aws.

Import Aws.

(** ** The world an operation runs in, and the monad threading it *)

Section World.

Variable B : Type.

Record World : Type := {
  backend : B;
  calls : list Call;
  (** what [bthread_self()] returns in the calling context: 0 on a plain
      thread *)
  bthread : Z
}.

Definition M (A : Type) : Type := World -> A * World.

Definition ret {A : Type} (a : A) : M A := fun w => (a, w).

Definition bind {A C : Type} (m : M A) (k : A -> M C) : M C :=
  fun w => let (a, w') := m w in k a w'.

Definition logged {A : Type} (c : Call) (f : B -> A * B) : M A :=
  fun w =>
    let (a, b) := f (backend w) in
    (a, {| backend := b; calls := calls w ++ [c]; bthread := bthread w |}).

Definition bthread_self : M Z := fun w => (bthread w, w).

(** Modelled from the spec: [AsyncIO::run_task] (util/async_io.h) is not in
    the sources at hand.  The task is marshalled to a worker thread, a plain
    thread, and the calling fiber is suspended until it has run. *)
Definition run_task {A : Type} (task : M A) : M A :=
  fun w =>
    let (a, w') :=
      task {| backend := backend w; calls := calls w; bthread := 0%Z |} in
    (a, {| backend := backend w'; calls := calls w'; bthread := bthread w |}).

End World.

Arguments backend {B} _.
Arguments calls {B} _.
Arguments bthread {B} _.
Arguments ret {B A} _ _.
Arguments bind {B A C} _ _ _.
Arguments logged {B A} _ _ _.
Arguments bthread_self {B} _.
Arguments run_task {B A} _ _.

Notation "x <- m ;; k" := (bind m (fun x => k))
  (at level 61, m at next level, right associativity).

(** The exceptions that leave the operations: [std::out_of_range] from
    [substr] at a position past the size, and
    [std::filesystem::filesystem_error] from [file_size] of a local path. *)
Inductive Exception : Type :=
| out_of_range (pos size : nat)
| filesystem_error (path : string).

(** How a call has ended: it returned, it threw, it ran into undefined
    behaviour, or (for a loop that need not end) it was still running after
    the given number of rounds. *)
Inductive Run (A : Type) : Type :=
| Returns (a : A)
| Throws (e : Exception)
| Undefined (what : string)
| OutOfFuel.
Arguments Returns {A} _.
Arguments Throws {A} _.
Arguments Undefined {A} _.
Arguments OutOfFuel {A}.

(** ** std::vector operations used by the source *)

Module Vec.

(** [v.front()]: undefined on an empty vector, which is [None] here. *)
Definition front {A : Type} (v : list A) : option A := hd_error v.

(** What is left in [v] after [std::move(v)] has been assigned to another
    vector: the buffer has changed hands and [v] is empty. *)
Definition moved_from {A : Type} (v : list A) : list A := [].

Definition empty {A : Type} (v : list A) : bool :=
  match v with
  | [] => true
  | _ :: _ => false
  end.

End Vec.

(** ** S3FileSystem *)

Section S3FileSystem.

Variable B : Type.

(** [ClientFactory::instance().create] and [S3Conf::to_string]
    (util/s3_util.h) are not in the sources at hand; [connect] takes them as
    they are. *)
Variable ClientFactory_create : S3Conf -> option (S3Client B).
Variable S3Conf_to_string : S3Conf -> string.

Record S3FileSystem : Type := {
  _root_path : Path;
  _id : string;
  _s3_conf : S3Conf;
  _client : option (S3Client B)
}.

(** The constructor.  The root path is formatted from the profile as it was
    passed in, before the body touches the prefix. *)
Definition S3FileSystem_ctor (s3_conf : S3Conf) (id : string) : S3FileSystem :=
  let root_path :=
    format "{}/{}/{}" [endpoint s3_conf; bucket s3_conf; prefix s3_conf] in
  let conf := s3_conf in
  let conf :=
    if (negb (Str.empty (prefix conf))
        && Str.is_char (Str.front (prefix conf)) "/")%bool
    then match Str.substr (prefix conf) 1 with
         | Some p => with_prefix conf p
         | None => conf
         end
    else conf in
  let conf :=
    if (negb (Str.empty (prefix conf))
        && Str.is_char (Str.back (prefix conf)) "/")%bool
    then with_prefix conf (Str.pop_back (prefix conf))
    else conf in
  {| _root_path := root_path; _id := id; _s3_conf := conf; _client := None |}.

Definition create (s3_conf : S3Conf) (id : string) : S3FileSystem :=
  S3FileSystem_ctor s3_conf id.

Definition get_client (fs : S3FileSystem) : option (S3Client B) := _client fs.

Definition CHECK_S3_CLIENT_error : Status :=
  InternalError "init s3 client error".

Definition get_key (fs : S3FileSystem) (path : Path) : string :=
  if Str.starts_with path (_root_path fs) then
    format "{}/{}"
      [prefix (_s3_conf fs);
       Str.c_str (Str.advance path (String.length (_root_path fs)))]
  else
    (* We consider it as a relative path. *)
    format "{}/{}" [prefix (_s3_conf fs); path].

(** [connect_impl] replaces the client of the file system. *)
Definition connect_impl (fs : S3FileSystem) : M B (Status * S3FileSystem) :=
  let fs' :=
    {| _root_path := _root_path fs; _id := _id fs; _s3_conf := _s3_conf fs;
       _client := ClientFactory_create (_s3_conf fs) |} in
  match _client fs' with
  | None =>
      ret (InternalError
             (format "failed to init s3 client with {}"
                [S3Conf_to_string (_s3_conf fs)]), fs')
  | Some _ => ret (OK, fs')
  end.

Definition connect (fs : S3FileSystem) : M B (Status * S3FileSystem) :=
  self <- bthread_self ;;
  if (self =? 0)%Z then connect_impl fs else run_task (connect_impl fs).

(** *** SDK calls, logged *)

Definition call_HeadObject (client : S3Client B) (r : HeadObjectRequest)
  : M B (Outcome HeadObjectResult) :=
  logged (Call_HeadObject r) (HeadObject client r).

Definition call_DeleteObject (client : S3Client B) (r : DeleteObjectRequest)
  : M B (Outcome DeleteObjectResult) :=
  logged (Call_DeleteObject r) (DeleteObject client r).

Definition call_DeleteObjects (client : S3Client B) (r : DeleteObjectsRequest)
  : M B (Outcome DeleteObjectsResult) :=
  logged (Call_DeleteObjects r) (DeleteObjects client r).

Definition call_ListObjectsV2 (client : S3Client B) (r : ListObjectsV2Request)
  : M B (Outcome ListObjectsV2Result) :=
  logged (Call_ListObjectsV2 r) (ListObjectsV2 client r).

Definition call_UploadFile (tm : TransferManager B)
    (local bkt key content_type : string) : M B TransferHandle :=
  logged (Call_UploadFile local bkt key content_type)
         (UploadFile tm local bkt key content_type).

Definition call_WaitUntilFinished (tm : TransferManager B) (h : TransferHandle)
  : M B unit :=
  logged (Call_WaitUntilFinished h) (fun b => (tt, WaitUntilFinished tm h b)).

(** Reading a handle's state issues nothing. *)
Definition peek {A : Type} (f : B -> A) : M B A :=
  fun w => (f (backend w), w).

(** *** upload, batch_upload *)

(** [std::filesystem::file_size] of a path on the local disk, as the disk is
    when [upload] asks: the size, or none when the call throws (the file is
    not there, or cannot be read). *)
Variable local_file_size : Path -> option Z.

(** After a completed transfer the size of the local file is asked for, to
    go into the log line; the line itself is left out. *)
Definition upload_impl (fs : S3FileSystem) (local_path dest_path : Path)
  : M B (Run Status) :=
  match get_client fs with
  | None => ret (Returns CHECK_S3_CLIENT_error)
  | Some client =>
      let transfer_manager := TransferManager_Create client in
      let key := get_key fs dest_path in
      handle <- call_UploadFile transfer_manager local_path
                  (bucket (_s3_conf fs)) key "text/plain" ;;
      _ <- call_WaitUntilFinished transfer_manager handle ;;
      status <- peek (GetStatus transfer_manager handle) ;;
      if negb (is_COMPLETED status) then
        e <- peek (GetLastError transfer_manager handle) ;;
        ret (Returns
               (IOError
                  (format
                     "failed to upload(endpoint={}, bucket={}, key={}): {}"
                     [endpoint (_s3_conf fs); bucket (_s3_conf fs); key;
                      GetMessage e])))
      else
        match local_file_size local_path with
        | None => ret (Throws (filesystem_error local_path))
        | Some file_size => ret (Returns OK)
        end
  end.

Definition upload (fs : S3FileSystem) (local_path dest_path : Path)
  : M B (Run Status) :=
  self <- bthread_self ;;
  if (self =? 0)%Z then upload_impl fs local_path dest_path
  else run_task (upload_impl fs local_path dest_path).

(** The first loop of [batch_upload_impl]: the two vectors have the same
    size here, and are walked by one index. *)
Fixpoint start_uploads (fs : S3FileSystem) (tm : TransferManager B)
    (local_paths dest_paths : list Path) (handles : list TransferHandle)
  : M B (list TransferHandle) :=
  match local_paths, dest_paths with
  | l :: local_paths', d :: dest_paths' =>
      let key := get_key fs d in
      handle <- call_UploadFile tm l (bucket (_s3_conf fs)) key "text/plain" ;;
      start_uploads fs tm local_paths' dest_paths' (handles ++ [handle])%list
  | _, _ => ret handles
  end.

(** The second loop. *)
Fixpoint wait_uploads (tm : TransferManager B) (handles : list TransferHandle)
  : M B Status :=
  match handles with
  | [] => ret OK
  | handle :: handles' =>
      _ <- call_WaitUntilFinished tm handle ;;
      status <- peek (GetStatus tm handle) ;;
      if negb (is_COMPLETED status) then
        e <- peek (GetLastError tm handle) ;;
        ret (IOError (GetMessage e))
      else wait_uploads tm handles'
  end.

Definition batch_upload_impl (fs : S3FileSystem)
    (local_paths dest_paths : list Path) : M B Status :=
  match get_client fs with
  | None => ret CHECK_S3_CLIENT_error
  | Some client =>
      if negb (length local_paths =? length dest_paths)%nat then
        ret (InvalidArgument "local_paths.size() != dest_paths.size()")
      else
        let transfer_manager := TransferManager_Create client in
        handles <- start_uploads fs transfer_manager local_paths dest_paths [] ;;
        wait_uploads transfer_manager handles
  end.

Definition batch_upload (fs : S3FileSystem)
    (local_paths dest_paths : list Path) : M B Status :=
  self <- bthread_self ;;
  if (self =? 0)%Z then batch_upload_impl fs local_paths dest_paths
  else run_task (batch_upload_impl fs local_paths dest_paths).

(** *** create_file, open_file *)

Record S3FileWriter : Type := {
  writer_path : Path;
  writer_client : option (S3Client B);
  writer_s3_conf : S3Conf
}.

Record S3FileReader : Type := {
  reader_path : Path;
  reader_file_size : Z;
  reader_key : string;
  reader_bucket : string;
  reader_fs : S3FileSystem
}.

(** An out-parameter is passed in and handed back: [writer] is what the
    caller's pointer held before the call. *)
Definition create_file_impl (fs : S3FileSystem) (path : Path)
    (writer : option S3FileWriter) : M B (Status * option S3FileWriter) :=
  ret (OK,
       Some {| writer_path := get_key fs path;
               writer_client := get_client fs;
               writer_s3_conf := _s3_conf fs |}).

Definition create_file (fs : S3FileSystem) (path : Path)
    (writer : option S3FileWriter) : M B (Status * option S3FileWriter) :=
  self <- bthread_self ;;
  if (self =? 0)%Z then create_file_impl fs path writer
  else run_task (create_file_impl fs path writer).

(** [long long] to [size_t]. *)
Definition to_size_t (n : Z) : Z := (n mod 2 ^ 64)%Z.

Definition file_size_impl (fs : S3FileSystem) (path : Path) (file_size : Z)
  : M B (Status * Z) :=
  match get_client fs with
  | None => ret (CHECK_S3_CLIENT_error, file_size)
  | Some client =>
      let key := get_key fs path in
      let request :=
        {| head_bucket := bucket (_s3_conf fs); head_key := key |} in
      outcome <- call_HeadObject client request ;;
      if IsSuccess outcome then
        ret (OK, to_size_t (GetContentLength (GetResult outcome)))
      else
        ret (IOError
               (format
                  "failed to get object size(endpoint={}, bucket={}, key={}): {}"
                  [endpoint (_s3_conf fs); bucket (_s3_conf fs); key;
                   GetMessage (GetError outcome)]),
             file_size)
  end.

Definition file_size (fs : S3FileSystem) (path : Path) (file_size : Z)
  : M B (Status * Z) :=
  self <- bthread_self ;;
  if (self =? 0)%Z then file_size_impl fs path file_size
  else run_task (file_size_impl fs path file_size).

Definition open_file_impl (fs : S3FileSystem) (path : Path)
    (reader : option S3FileReader) : M B (Status * option S3FileReader) :=
  r <- file_size fs path 0%Z ;;
  let (_status_, fsize) := r in
  if negb (Status_ok _status_) then ret (_status_, reader)
  else
    let key := get_key fs path in
    let fs_path :=
      Path_append (Path_append (endpoint (_s3_conf fs)) (bucket (_s3_conf fs)))
                  key in
    ret (OK,
         Some {| reader_path := fs_path; reader_file_size := fsize;
                 reader_key := key; reader_bucket := bucket (_s3_conf fs);
                 reader_fs := fs |}).

Definition open_file (fs : S3FileSystem) (path : Path)
    (reader : option S3FileReader) : M B (Status * option S3FileReader) :=
  self <- bthread_self ;;
  if (self =? 0)%Z then open_file_impl fs path reader
  else run_task (open_file_impl fs path reader).

(** *** delete_file, create_directory, link_file, exists *)

Definition delete_file_impl (fs : S3FileSystem) (path : Path) : M B Status :=
  match get_client fs with
  | None => ret CHECK_S3_CLIENT_error
  | Some client =>
      let key := get_key fs path in
      let request :=
        {| delete_bucket := bucket (_s3_conf fs); delete_key := key |} in
      outcome <- call_DeleteObject client request ;;
      if (IsSuccess outcome
          || (GetResponseCode (GetError outcome) =? NOT_FOUND)%Z)%bool
      then ret OK
      else
        ret (IOError
               (format
                  "failed to delete object(endpoint={}, bucket={}, key={}): {}"
                  [endpoint (_s3_conf fs); bucket (_s3_conf fs); key;
                   GetMessage (GetError outcome)]))
  end.

Definition delete_file (fs : S3FileSystem) (path : Path) : M B Status :=
  self <- bthread_self ;;
  if (self =? 0)%Z then delete_file_impl fs path
  else run_task (delete_file_impl fs path).

Definition create_directory (fs : S3FileSystem) (path : Path) : M B Status :=
  ret OK.

Definition link_file (fs : S3FileSystem) (src dest : Path) : M B Status :=
  ret (NotSupported "not support").

Definition exists_impl (fs : S3FileSystem) (path : Path) (res : bool)
  : M B (Status * bool) :=
  match get_client fs with
  | None => ret (CHECK_S3_CLIENT_error, res)
  | Some client =>
      let key := get_key fs path in
      let request :=
        {| head_bucket := bucket (_s3_conf fs); head_key := key |} in
      outcome <- call_HeadObject client request ;;
      if IsSuccess outcome then ret (OK, true)
      else if (GetResponseCode (GetError outcome) =? NOT_FOUND)%Z then
        ret (OK, false)
      else
        ret (IOError
               (format
                  "failed to get object head(endpoint={}, bucket={}, key={}): {}"
                  [endpoint (_s3_conf fs); bucket (_s3_conf fs); key;
                   GetMessage (GetError outcome)]),
             res)
  end.

Definition exists_ (fs : S3FileSystem) (path : Path) (res : bool)
  : M B (Status * bool) :=
  self <- bthread_self ;;
  if (self =? 0)%Z then exists_impl fs path res
  else run_task (exists_impl fs path res).

(** *** delete_directory, list *)

(** The key of a directory, as a listing prefix. *)
Definition dir_prefix (fs : S3FileSystem) (path : Path) : string :=
  let prefix := get_key fs path in
  if (negb (Str.empty prefix) && negb (Str.is_char (Str.back prefix) "/"))%bool
  then Str.push_back prefix "/"
  else prefix.

Definition to_identifiers (contents : list Object) : list ObjectIdentifier :=
  map (fun obj => {| id_key := GetKey obj |}) contents.

(** The do-while loop of [delete_directory_impl]; [fuel] bounds the number
    of rounds. *)
Fixpoint delete_directory_loop (fuel : nat) (fs : S3FileSystem)
    (client : S3Client B) (prefix : string) (request : ListObjectsV2Request)
    (delete_request : DeleteObjectsRequest) : M B (Run Status) :=
  match fuel with
  | O => ret OutOfFuel
  | S fuel' =>
      outcome <- call_ListObjectsV2 client request ;;
      if negb (IsSuccess outcome) then
        ret (Returns
               (IOError
                  (format
                     "failed to list objects(endpoint={}, bucket={}, prefix={}): {}"
                     [endpoint (_s3_conf fs); bucket (_s3_conf fs); prefix;
                      GetMessage (GetError outcome)])))
      else
        let result := GetResult outcome in
        let objects := to_identifiers (GetContents result) in
        let next (delete_request : DeleteObjectsRequest) : M B (Run Status) :=
          let is_trucated := GetIsTruncated result in
          let request :=
            SetContinuationToken request (GetNextContinuationToken result) in
          if is_trucated then
            delete_directory_loop fuel' fs client prefix request delete_request
          else ret (Returns OK) in
        match objects with
        | [] => next delete_request
        | _ :: _ =>
            let del := {| GetObjects := objects; GetQuiet := true |} in
            let delete_request := SetDelete delete_request del in
            delete_outcome <- call_DeleteObjects client delete_request ;;
            if negb (IsSuccess delete_outcome) then
              ret (Returns
                     (IOError
                        (format
                           "failed to delete objects(endpoint={}, bucket={}, prefix={}): {}"
                           [endpoint (_s3_conf fs); bucket (_s3_conf fs); prefix;
                            GetMessage (GetError delete_outcome)])))
            else
              match GetErrors (GetResult delete_outcome) with
              | e :: _ =>
                  ret (Returns
                         (IOError
                            (format
                               "fail to delete object(endpoint={}, bucket={}, key={}): {}"
                               [endpoint (_s3_conf fs); bucket (_s3_conf fs);
                                Error_GetKey e; Error_GetMessage e])))
              | [] => next delete_request
              end
        end
  end.

Definition delete_directory_impl (fuel : nat) (fs : S3FileSystem) (path : Path)
  : M B (Run Status) :=
  match get_client fs with
  | None => ret (Returns CHECK_S3_CLIENT_error)
  | Some client =>
      let prefix := dir_prefix fs path in
      let request :=
        {| list_bucket := bucket (_s3_conf fs); list_prefix := prefix;
           list_continuation_token := None |} in
      let delete_request :=
        {| objects_bucket := bucket (_s3_conf fs); GetDelete := no_delete |} in
      delete_directory_loop fuel fs client prefix request delete_request
  end.

Definition delete_directory (fuel : nat) (fs : S3FileSystem) (path : Path)
  : M B (Run Status) :=
  self <- bthread_self ;;
  if (self =? 0)%Z then delete_directory_impl fuel fs path
  else run_task (delete_directory_impl fuel fs path).

(** The inner loop of [list]: every key of the page, cut at the length of
    the prefix, is pushed onto [files]; [substr] throws on a key shorter
    than the prefix, and what was pushed before stays. *)
Fixpoint push_back_relative (n : nat) (contents : list Object)
    (files : list Path) : option Exception * list Path :=
  match contents with
  | [] => (None, files)
  | obj :: contents' =>
      match Str.substr (GetKey obj) n with
      | Some rel => push_back_relative n contents' (files ++ [rel])%list
      | None => (Some (out_of_range n (String.length (GetKey obj))), files)
      end
  end.

(** The do-while loop of [list].  The request is the same in every round:
    nothing in the loop writes to it. *)
Fixpoint list_loop (fuel : nat) (fs : S3FileSystem) (client : S3Client B)
    (prefix : string) (request : ListObjectsV2Request) (files : list Path)
  : M B (Run Status * list Path) :=
  match fuel with
  | O => ret (OutOfFuel, files)
  | S fuel' =>
      outcome <- call_ListObjectsV2 client request ;;
      if negb (IsSuccess outcome) then
        ret (Returns
               (IOError
                  (format
                     "failed to list objects(endpoint={}, bucket={}, prefix={}): {}"
                     [endpoint (_s3_conf fs); bucket (_s3_conf fs); prefix;
                      GetMessage (GetError outcome)])),
             files)
      else
        match
          push_back_relative (String.length prefix)
            (GetContents (GetResult outcome)) files
        with
        | (Some what, files) => ret (Throws what, files)
        | (None, files) =>
            let is_trucated := GetIsTruncated (GetResult outcome) in
            if is_trucated then list_loop fuel' fs client prefix request files
            else ret (Returns OK, files)
        end
  end.

(** [files] is what the caller's vector held before the call. *)
Definition list_ (fuel : nat) (fs : S3FileSystem) (path : Path)
    (files : list Path) : M B (Run Status * list Path) :=
  match get_client fs with
  | None => ret (Returns CHECK_S3_CLIENT_error, files)
  | Some client =>
      let prefix := dir_prefix fs path in
      let request :=
        {| list_bucket := bucket (_s3_conf fs); list_prefix := prefix;
           list_continuation_token := None |} in
      list_loop fuel fs client prefix request files
  end.

(** *** batch_delete *)

(** [DeleteObjectsRequest] can only contain 1000 keys at most. *)
Definition max_delete_batch : nat := 1000.

(** The inner loop of [batch_delete]: [room] is what is left of
    [max_delete_batch] after [path_iter - path_begin] paths. *)
Fixpoint take_batch (fs : S3FileSystem) (room : nat) (path_iter : list Path)
    (objects : list ObjectIdentifier) : list ObjectIdentifier * list Path :=
  match room, path_iter with
  | S room', p :: path_iter' =>
      take_batch fs room' path_iter'
        (objects ++ [{| id_key := get_key fs p |}])%list
  | _, _ => (objects, path_iter)
  end.

(** The do-while loop of [batch_delete]; [path_iter] is the part of [paths]
    from the iterator on. *)
Fixpoint batch_delete_loop (fuel : nat) (fs : S3FileSystem)
    (client : S3Client B) (path_iter : list Path)
    (delete_request : DeleteObjectsRequest) : M B (Run Status) :=
  match fuel with
  | O => ret OutOfFuel
  | S fuel' =>
      let (objects, path_iter) := take_batch fs max_delete_batch path_iter [] in
      if Vec.empty objects then ret (Returns OK)
      else
        let del := {| GetObjects := objects; GetQuiet := true |} in
        let objects := Vec.moved_from objects in
        let delete_request := SetDelete delete_request del in
        delete_outcome <- call_DeleteObjects client delete_request ;;
        if negb (IsSuccess delete_outcome) then
          match Vec.front objects with
          | Some first =>
              ret (Returns
                     (IOError
                        (format
                           "failed to delete objects(endpoint={}, bucket={}, key[0]={}): {}"
                           [endpoint (_s3_conf fs); bucket (_s3_conf fs);
                            id_key first;
                            GetMessage (GetError delete_outcome)])))
          | None => ret (Undefined "front() of an empty vector")
          end
        else
          match GetErrors (GetResult delete_outcome) with
          | e :: _ =>
              ret (Returns
                     (IOError
                        (format
                           "failed to delete objects(endpoint={}, bucket={}, key={}): {}"
                           [endpoint (_s3_conf fs); bucket (_s3_conf fs);
                            Error_GetKey e;
                            GetMessage (GetError delete_outcome)])))
          | [] =>
              if negb (Vec.empty path_iter) then
                batch_delete_loop fuel' fs client path_iter delete_request
              else ret (Returns OK)
          end
  end.

(** Every round but the last takes [max_delete_batch] paths, so the loop has
    ended after [length paths / max_delete_batch + 1] rounds. *)
Definition batch_delete (fs : S3FileSystem) (paths : list Path)
  : M B (Run Status) :=
  match get_client fs with
  | None => ret (Returns CHECK_S3_CLIENT_error)
  | Some client =>
      let delete_request :=
        {| objects_bucket := bucket (_s3_conf fs); GetDelete := no_delete |} in
      batch_delete_loop (S (length paths / max_delete_batch)) fs client paths
        delete_request
  end.

End S3FileSystem.

Arguments _root_path {B} _.
Arguments _id {B} _.
Arguments _s3_conf {B} _.
Arguments _client {B} _.
Arguments S3FileSystem_ctor {B} _ _.
Arguments create {B} _ _.
Arguments get_client {B} _.
Arguments get_key {B} _ _.
Arguments dir_prefix {B} _ _.
Arguments writer_path {B} _.
Arguments writer_client {B} _.
Arguments writer_s3_conf {B} _.
Arguments reader_path {B} _.
Arguments reader_file_size {B} _.
Arguments reader_key {B} _.
Arguments reader_bucket {B} _.
Arguments reader_fs {B} _.
Arguments connect_impl {B} _ _ _ _.
Arguments connect {B} _ _ _ _.
Arguments upload_impl {B} _ _ _ _ _.
Arguments upload {B} _ _ _ _ _.
Arguments start_uploads {B} _ _ _ _ _ _.
Arguments wait_uploads {B} _ _ _.
Arguments batch_upload_impl {B} _ _ _ _.
Arguments batch_upload {B} _ _ _ _.
Arguments create_file_impl {B} _ _ _ _.
Arguments create_file {B} _ _ _ _.
Arguments file_size_impl {B} _ _ _ _.
Arguments file_size {B} _ _ _ _.
Arguments open_file_impl {B} _ _ _ _.
Arguments open_file {B} _ _ _ _.
Arguments delete_file_impl {B} _ _ _.
Arguments delete_file {B} _ _ _.
Arguments create_directory {B} _ _ _.
Arguments link_file {B} _ _ _ _.
Arguments exists_impl {B} _ _ _ _.
Arguments exists_ {B} _ _ _ _.
Arguments delete_directory_loop {B} _ _ _ _ _ _ _.
Arguments delete_directory_impl {B} _ _ _ _.
Arguments delete_directory {B} _ _ _ _.
Arguments list_loop {B} _ _ _ _ _ _ _.
Arguments list_ {B} _ _ _ _ _.
Arguments take_batch {B} _ _ _ _.
Arguments batch_delete_loop {B} _ _ _ _ _ _.
Arguments batch_delete {B} _ _ _.
Arguments call_HeadObject {B} _ _ _.
Arguments call_DeleteObject {B} _ _ _.
Arguments call_DeleteObjects {B} _ _ _.
Arguments call_ListObjectsV2 {B} _ _ _.
Arguments call_UploadFile {B} _ _ _ _ _ _.
Arguments call_WaitUntilFinished {B} _ _ _.
Arguments peek {B A} _ _.

(** ** An in-memory object store

    A small backend to run the operations against: objects are kept in
    listing order, a listing hands out [page_size] keys per page and
    continues after the key given as continuation token, keys in
    [denied] answer 403, and bulk deletes answer 503 once [outage_after]
    has run down to zero. *)

Module Mock.

Record Transfer : Type := {
  transfer_local : string;
  transfer_key : string;
  transfer_status : TransferStatus
}.

Record Store : Type := {
  objects : list Object;
  page_size : nat;
  denied : list string;
  outage_after : option nat;
  unreadable : list string;
  transfers : list Transfer
}.

Definition with_objects (s : Store) (os : list Object) : Store :=
  {| objects := os; page_size := page_size s; denied := denied s;
     outage_after := outage_after s; unreadable := unreadable s;
     transfers := transfers s |}.

Definition with_outage (s : Store) (o : option nat) : Store :=
  {| objects := objects s; page_size := page_size s; denied := denied s;
     outage_after := o; unreadable := unreadable s;
     transfers := transfers s |}.

Definition with_transfers (s : Store) (ts : list Transfer) : Store :=
  {| objects := objects s; page_size := page_size s; denied := denied s;
     outage_after := outage_after s; unreadable := unreadable s;
     transfers := ts |}.

Definition mem (k : string) (ks : list string) : bool :=
  existsb (String.eqb k) ks.

Definition find_object (k : string) (os : list Object) : option Object :=
  find (fun o => String.eqb (GetKey o) k) os.

Definition remove_object (k : string) (os : list Object) : list Object :=
  filter (fun o => negb (String.eqb (GetKey o) k)) os.

Definition error (code : Z) (msg : string) : AWSError :=
  {| GetResponseCode := code; GetMessage := msg |}.

Definition head_object (r : HeadObjectRequest) (s : Store)
  : Outcome HeadObjectResult * Store :=
  let none := {| GetContentLength := 0%Z |} in
  if mem (head_key r) (denied s) then (failure none (error 403 "Forbidden"), s)
  else
    match find_object (head_key r) (objects s) with
    | Some o => (success {| GetContentLength := GetSize o |}, s)
    | None => (failure none (error 404 "Not Found"), s)
    end.

Definition delete_object (r : DeleteObjectRequest) (s : Store)
  : Outcome DeleteObjectResult * Store :=
  let none := {| GetDeleteMarker := false |} in
  if mem (delete_key r) (denied s) then
    (failure none (error 403 "Access Denied"), s)
  else
    match find_object (delete_key r) (objects s) with
    | Some _ =>
        (success none, with_objects s (remove_object (delete_key r) (objects s)))
    | None => (failure none (error 404 "The specified key does not exist."), s)
    end.

(** One bulk delete: denied keys are reported one by one, the others go. *)
Fixpoint delete_each (ids : list ObjectIdentifier) (s : Store)
  : list Error * Store :=
  match ids with
  | [] => ([], s)
  | i :: ids' =>
      if mem (id_key i) (denied s) then
        let (es, s') := delete_each ids' s in
        ({| Error_GetKey := id_key i; Error_GetMessage := "Access Denied" |}
           :: es, s')
      else
        delete_each ids' (with_objects s (remove_object (id_key i) (objects s)))
  end.

Definition delete_objects (r : DeleteObjectsRequest) (s : Store)
  : Outcome DeleteObjectsResult * Store :=
  match outage_after s with
  | Some O =>
      (failure {| GetErrors := [] |} (error 503 "Service Unavailable"), s)
  | budget =>
      let s := with_outage s (option_map Nat.pred budget) in
      let (es, s') := delete_each (GetObjects (GetDelete r)) s in
      (success {| GetErrors := es |}, s')
  end.

(** The objects whose key comes after the token; the store keeps its
    objects in the order of their keys. *)
Definition after (token : string) (os : list Object) : list Object :=
  filter (fun o => String.ltb token (GetKey o)) os.

Definition list_objects_v2 (r : ListObjectsV2Request) (s : Store)
  : Outcome ListObjectsV2Result * Store :=
  let under :=
    filter (fun o => String.prefix (list_prefix r) (GetKey o)) (objects s) in
  let rest :=
    match list_continuation_token r with
    | Some t => after t under
    | None => under
    end in
  let page := firstn (page_size s) rest in
  (success
     {| GetContents := page;
        GetIsTruncated := Nat.ltb (page_size s) (length rest);
        GetNextContinuationToken :=
          match rev page with
          | o :: _ => GetKey o
          | [] => EmptyString
          end |},
   s).

Definition upload_file (local bkt key content_type : string) (s : Store)
  : TransferHandle * Store :=
  (length (transfers s),
   with_transfers s
     (transfers s
        ++ [{| transfer_local := local; transfer_key := key;
               transfer_status := IN_PROGRESS |}])%list).

Fixpoint finish (h : nat) (bad : list string) (ts : list Transfer)
  : list Transfer :=
  match ts, h with
  | [], _ => []
  | t :: ts', O =>
      {| transfer_local := transfer_local t; transfer_key := transfer_key t;
         transfer_status :=
           if mem (transfer_local t) bad then FAILED else COMPLETED |} :: ts'
  | t :: ts', S h' => t :: finish h' bad ts'
  end.

Definition wait_until_finished (h : TransferHandle) (s : Store) : Store :=
  with_transfers s (finish h (unreadable s) (transfers s)).

Definition get_status (h : TransferHandle) (s : Store) : TransferStatus :=
  match nth_error (transfers s) h with
  | Some t => transfer_status t
  | None => NOT_STARTED
  end.

Definition get_last_error (h : TransferHandle) (s : Store) : AWSError :=
  match nth_error (transfers s) h with
  | Some t =>
      match transfer_status t with
      | FAILED => error (-1) ("Unable to open file " ++ transfer_local t)
      | _ => no_error
      end
  | None => no_error
  end.

Definition client : S3Client Store :=
  {| HeadObject := head_object;
     DeleteObject := delete_object;
     DeleteObjects := delete_objects;
     ListObjectsV2 := list_objects_v2;
     TransferManager_Create :=
       {| UploadFile := upload_file;
          WaitUntilFinished := wait_until_finished;
          GetStatus := get_status;
          GetLastError := get_last_error |} |}.

Definition conf : S3Conf :=
  {| ak := "ak"; sk := "sk"; endpoint := "s3.example.com";
     region := "us-east-1"; bucket := "warehouse"; prefix := "data" |}.

(** A file system over [conf], before and after [connect]. *)
Definition fs0 : S3FileSystem Store := create conf "s3_fs".

Definition fs : S3FileSystem Store :=
  {| _root_path := _root_path fs0; _id := _id fs0; _s3_conf := _s3_conf fs0;
     _client := Some client |}.

Definition obj (k : string) (n : Z) : Object := {| GetKey := k; GetSize := n |}.

Definition store (os : list Object) : Store :=
  {| objects := os; page_size := 2; denied := []; outage_after := None;
     unreadable := []; transfers := [] |}.

Definition world (s : Store) : World Store :=
  {| backend := s; calls := []; bthread := 0%Z |}.

End Mock.

(** ** Reference behaviours, written from the specification *)

Section Reference.

Variable B : Type.

(** Firing one transfer per job, in order: the handles and the backend
    afterwards. *)
Fixpoint started (tm : TransferManager B) (bkt : string)
    (jobs : list (Path * string)) (b : B) : list TransferHandle * B :=
  match jobs with
  | [] => ([], b)
  | (local, key) :: jobs' =>
      let (h, b1) := UploadFile tm local bkt key "text/plain" b in
      let (hs, b2) := started tm bkt jobs' b1 in
      (h :: hs, b2)
  end.

(** [Waited tm handles b st waited b']: waiting on [handles] in order from
    backend [b] stops with status [st] in backend [b'], having waited on
    [waited]: all of them when each one completed, otherwise the handles up
    to the first one that did not complete, whose last error is reported. *)
Inductive Waited (tm : TransferManager B)
  : list TransferHandle -> B -> Status -> list TransferHandle -> B -> Prop :=
| Waited_all (b : B) :
    Waited tm [] b OK [] b
| Waited_failed (h : TransferHandle) (hs : list TransferHandle) (b : B) :
    is_COMPLETED (GetStatus tm h (WaitUntilFinished tm h b)) = false ->
    Waited tm (h :: hs) b
      (IOError (GetMessage (GetLastError tm h (WaitUntilFinished tm h b))))
      [h] (WaitUntilFinished tm h b)
| Waited_completed (h : TransferHandle) (hs : list TransferHandle) (b : B)
    (st : Status) (waited : list TransferHandle) (b' : B) :
    is_COMPLETED (GetStatus tm h (WaitUntilFinished tm h b)) = true ->
    Waited tm hs (WaitUntilFinished tm h b) st waited b' ->
    Waited tm (h :: hs) b st (h :: waited) b'.

(** [EmptyListing client n request b]: paging through the listing from
    [request], carrying each page's continuation token to the next request,
    takes [n] pages from backend [b]; every page is a success without
    objects, and the last one reports no further page. *)
Inductive EmptyListing (client : S3Client B)
  : nat -> ListObjectsV2Request -> B -> Prop :=
| EmptyListing_last (request : ListObjectsV2Request) (b : B) :
    let outcome := fst (ListObjectsV2 client request b) in
    IsSuccess outcome = true ->
    GetContents (GetResult outcome) = [] ->
    GetIsTruncated (GetResult outcome) = false ->
    EmptyListing client 1 request b
| EmptyListing_more (n : nat) (request : ListObjectsV2Request) (b : B) :
    let outcome := fst (ListObjectsV2 client request b) in
    IsSuccess outcome = true ->
    GetContents (GetResult outcome) = [] ->
    GetIsTruncated (GetResult outcome) = true ->
    EmptyListing client n
      (SetContinuationToken request
         (GetNextContinuationToken (GetResult outcome)))
      (snd (ListObjectsV2 client request b)) ->
    EmptyListing client (S n) request b.

End Reference.

Arguments started {B} _ _ _ _.
Arguments Waited {B} _ _ _ _ _ _.
Arguments EmptyListing {B} _ _ _ _.

Definition upload_call (bkt : string) (job : Path * string) : Call :=
  Call_UploadFile (fst job) bkt (snd job) "text/plain".

Definition is_Call_ListObjectsV2 (c : Call) : bool :=
  match c with
  | Call_ListObjectsV2 _ => true
  | _ => false
  end.

(** A quiet bulk delete of the given keys. *)
Definition bulk_delete_call (bkt : string) (ids : list ObjectIdentifier) : Call :=
  Call_DeleteObjects
    {| objects_bucket := bkt;
       GetDelete := {| GetObjects := ids; GetQuiet := true |} |}.

(** The number of keys a logged bulk delete carried. *)
Definition bulk_delete_size (c : Call) : option nat :=
  match c with
  | Call_DeleteObjects r => Some (length (GetObjects (GetDelete r)))
  | _ => None
  end.

(** ** Sample data for the in-memory store *)

Module Sample.

Import Mock.

Definition name (i : nat) : string :=
  "part-" ++ NilEmpty.string_of_uint (Nat.to_uint i).

(** [n] paths, relative to the root of the file system. *)
Definition paths (n : nat) : list Path := map name (seq 0 n).

(** One empty object per path, under the prefix of [conf]. *)
Definition objects_of (ps : list Path) : list Object :=
  map (fun p => obj (prefix conf ++ "/" ++ p) 0) ps.

(** Three objects under [data/dir/], in key order; a page holds two. *)
Definition dir3 : Store :=
  store [obj "data/dir/a" 1; obj "data/dir/b" 2; obj "data/dir/sub/c" 3].

(** The listing request that [list] and [delete_directory] start from. *)
Definition first_page (pfx : string) : ListObjectsV2Request :=
  {| list_bucket := bucket conf; list_prefix := pfx;
     list_continuation_token := None |}.

End Sample.

(** ** Shapes of prefixes and of logged calls *)

Definition leading_slash (s : string) : bool :=
  Str.is_char (Str.front s) "/".

Definition trailing_slash (s : string) : bool :=
  Str.is_char (Str.back s) "/".

(** The last two characters are both '/'. *)
Definition double_trailing_slash (s : string) : bool :=
  (trailing_slash s && trailing_slash (Str.pop_back s))%bool.

(** A string without its first character when that is a '/', and without its
    last character when that is a '/'. *)
Definition without_leading_slash (s : string) : string :=
  match s with
  | String c rest => if Ascii.eqb c "/" then rest else s
  | EmptyString => s
  end.

Definition without_trailing_slash (s : string) : string :=
  if trailing_slash s then Str.pop_back s else s.

(** What a call logged by [delete_directory] on bucket [bkt] and listing
    prefix [pfx] may be: a listing of that prefix, or a quiet bulk delete
    that carries at least one key. *)
Definition directory_call (bkt pfx : string) (c : Call) : Prop :=
  match c with
  | Call_ListObjectsV2 r => list_bucket r = bkt /\ list_prefix r = pfx
  | Call_DeleteObjects r =>
      objects_bucket r = bkt
      /\ GetQuiet (GetDelete r) = true
      /\ GetObjects (GetDelete r) <> []
  | _ => False
  end.

(** ** A successful sweep of a directory *)

Section Sweep.

Variable B : Type.

(** Deleting the objects of one page: nothing is sent for an empty page;
    otherwise one quiet bulk delete, which has to succeed without per-object
    errors. *)
Definition delete_page (client : S3Client B) (bkt : string)
    (ids : list ObjectIdentifier) (b : B) : option (list Call * B) :=
  match ids with
  | [] => Some ([], b)
  | _ :: _ =>
      let request :=
        {| objects_bucket := bkt;
           GetDelete := {| GetObjects := ids; GetQuiet := true |} |} in
      let outcome := fst (DeleteObjects client request b) in
      if (IsSuccess outcome
          && Vec.empty (GetErrors (GetResult outcome)))%bool
      then Some ([Call_DeleteObjects request],
                 snd (DeleteObjects client request b))
      else None
  end.

(** [Swept client bkt n request b cs b']: from backend [b], listing from
    [request] and deleting page by page goes well for [n] pages and ends in
    [b'], [cs] being the calls made: every listing succeeds, each page's
    objects are deleted by [delete_page] before the next page is asked for
    with the continuation token of the page before, and the last page
    reports no further page. *)
Inductive Swept (client : S3Client B) (bkt : string)
  : nat -> ListObjectsV2Request -> B -> list Call -> B -> Prop :=
| Swept_last (request : ListObjectsV2Request) (b : B) (cs : list Call)
    (b' : B) :
    let outcome := fst (ListObjectsV2 client request b) in
    IsSuccess outcome = true ->
    delete_page client bkt
      (to_identifiers (GetContents (GetResult outcome)))
      (snd (ListObjectsV2 client request b))
    = Some (cs, b') ->
    GetIsTruncated (GetResult outcome) = false ->
    Swept client bkt 1 request b (Call_ListObjectsV2 request :: cs) b'
| Swept_more (n : nat) (request : ListObjectsV2Request) (b : B)
    (cs : list Call) (b1 : B) (cs' : list Call) (b' : B) :
    let outcome := fst (ListObjectsV2 client request b) in
    IsSuccess outcome = true ->
    delete_page client bkt
      (to_identifiers (GetContents (GetResult outcome)))
      (snd (ListObjectsV2 client request b))
    = Some (cs, b1) ->
    GetIsTruncated (GetResult outcome) = true ->
    Swept client bkt n
      (SetContinuationToken request
         (GetNextContinuationToken (GetResult outcome)))
      b1 cs' b' ->
    Swept client bkt (S n) request b
      (Call_ListObjectsV2 request :: cs ++ cs')%list b'.

End Sweep.

Arguments delete_page {B} _ _ _ _.
Arguments Swept {B} _ _ _ _ _ _ _.

(** A file system over the root of the bucket: the supplied prefix is a
    single '/', and none is stored. *)
Definition bucket_root_fs : S3FileSystem Mock.Store :=
  let fs0 := create (B:=Mock.Store) (with_prefix Mock.conf "/") "s3_root" in
  {| _root_path := _root_path fs0; _id := _id fs0; _s3_conf := _s3_conf fs0;
     _client := Some Mock.client |}.

(** A local disk on which every file but [gone.csv] is there, 1024 bytes
    long. *)
Definition sample_disk (p : Path) : option Z :=
  if String.eqb p "gone.csv" then None else Some 1024%Z.

(** A client whose bulk deletes always go through, and one whose listing
    hands out a key that does not carry the prefix asked for. *)
Definition reliable_delete_objects (r : DeleteObjectsRequest) (s : Mock.Store)
  : Outcome DeleteObjectsResult * Mock.Store :=
  (success {| GetErrors := [] |},
   Mock.with_objects s
     (fold_left (fun os i => Mock.remove_object (id_key i) os)
                (GetObjects (GetDelete r)) (Mock.objects s))).

Definition reliable_client : S3Client Mock.Store :=
  {| HeadObject := Mock.head_object;
     DeleteObject := Mock.delete_object;
     DeleteObjects := reliable_delete_objects;
     ListObjectsV2 := Mock.list_objects_v2;
     TransferManager_Create := TransferManager_Create Mock.client |}.

Definition short_key_list (r : ListObjectsV2Request) (s : Mock.Store)
  : Outcome ListObjectsV2Result * Mock.Store :=
  (success
     {| GetContents := [Mock.obj (list_prefix r ++ "x") 1; Mock.obj "k" 1];
        GetIsTruncated := false;
        GetNextContinuationToken := EmptyString |},
   s).

Definition short_key_client : S3Client Mock.Store :=
  {| HeadObject := Mock.head_object;
     DeleteObject := Mock.delete_object;
     DeleteObjects := Mock.delete_objects;
     ListObjectsV2 := short_key_list;
     TransferManager_Create := TransferManager_Create Mock.client |}.

Definition with_client (c : S3Client Mock.Store) : S3FileSystem Mock.Store :=
  {| _root_path := _root_path Mock.fs0; _id := _id Mock.fs0;
     _s3_conf := _s3_conf Mock.fs0; _client := Some c |}.

(** * BRpcService: be/src/service/brpc_service.cpp

    The brpc server is taken as it is: its state, what its calls answer and
    what they do to the state.  Log lines are left out. *)

Module BRpc.

Record EndPoint : Type := {
  ip : string;
  port : Z
}.

(** [brpc::ServerOptions], of which the service sets [num_threads]. *)
Record ServerOptions : Type := {
  num_threads : Z
}.

Inductive ServerCall : Type :=
| AddService
| add_brpc_http_service
| Start (point : EndPoint) (options : ServerOptions)
| Stop (closewait_ms : Z)
| Join
| ClearServices.

Section Service.

Variable T : Type.

Record Server : Type := {
  Server_AddService : T -> Z * T;
  Server_add_http_service : T -> T;
  Server_Start : EndPoint -> ServerOptions -> T -> Z * T;
  Server_Stop : Z -> T -> Z * T;
  Server_Join : T -> Z * T;
  Server_ClearServices : T -> T
}.

(** What the service finds around it: the server, [butil::str2endpoint]
    with its return code and the endpoint it writes, the bind address of
    [BackendOptions], and the options a fresh [ServerOptions] holds. *)
Record Env : Type := {
  server : Server;
  str2endpoint : string -> Z -> Z * EndPoint;
  get_service_bind_address : string;
  default_options : ServerOptions
}.

Record State : Type := {
  server_state : T;
  server_calls : list ServerCall
}.

Definition called (c : ServerCall) (s : T) (st : State) : State :=
  {| server_state := s; server_calls := server_calls st ++ [c] |}.

(** An [int], printed by fmt. *)
Definition int_to_string (n : Z) : string :=
  NilZero.string_of_int (Z.to_int n).

Definition start (env : Env) (port num_threads : Z) (st : State)
  : Status * State :=
  (* Add service *)
  let (_, s) := Server_AddService (server env) (server_state st) in
  let st := called AddService s st in
  let st :=
    called add_brpc_http_service
      (Server_add_http_service (server env) (server_state st)) st in
  (* start service *)
  let options := default_options env in
  let options :=
    if negb (num_threads =? -1)%Z then {| BRpc.num_threads := num_threads |}
    else options in
  let (rc, point) := str2endpoint env (get_service_bind_address env) port in
  if (rc <? 0)%Z then
    (InternalError
       (format "convert address failed, host={}, port={}"
          ["[::0]"; int_to_string port]),
     st)
  else
    let (rc, s) := Server_Start (server env) point options (server_state st) in
    let st := called (Start point options) s st in
    if negb (rc =? 0)%Z then (InternalError "start brpc service failed", st)
    else (OK, st).

Definition join (env : Env) (st : State) : State :=
  let (_, s) := Server_Stop (server env) 1000 (server_state st) in
  let st := called (Stop 1000) s st in
  let (_, s) := Server_Join (server env) (server_state st) in
  let st := called Join s st in
  called ClearServices (Server_ClearServices (server env) (server_state st)) st.

End Service.

Arguments server {T} _.
Arguments str2endpoint {T} _ _ _.
Arguments get_service_bind_address {T} _.
Arguments default_options {T} _.
Arguments server_state {T} _.
Arguments server_calls {T} _.
Arguments start {T} _ _ _ _.
Arguments join {T} _ _.

(** A server that counts its services and remembers whether it runs; it
    refuses to start on port 0, and addresses with a negative port do not
    convert. *)
Definition sample_server : Server (nat * bool) :=
  {| Server_AddService := fun s => (0%Z, (S (fst s), snd s));
     Server_add_http_service := fun s => (S (fst s), snd s);
     Server_Start :=
       fun point _ s =>
         if (port point =? 0)%Z then ((-1)%Z, s) else (0%Z, (fst s, true));
     Server_Stop := fun _ s => (0%Z, (fst s, false));
     Server_Join := fun s => (0%Z, s);
     Server_ClearServices := fun s => (0, snd s) |}.

Definition sample_env : Env (nat * bool) :=
  {| server := sample_server;
     str2endpoint :=
       fun host p =>
         if (p <? 0)%Z then ((-1)%Z, {| ip := EmptyString; port := 0 |})
         else (0%Z, {| ip := host; port := p |});
     get_service_bind_address := "0.0.0.0";
     default_options := {| num_threads := 8 |} |}.

Definition fresh : State (nat * bool) :=
  {| server_state := (0, false); server_calls := [] |}.

End BRpc.

(** * Properties *)
(** ** The path/key translator *)

Lemma append_empty_r (s : string) : s ++ EmptyString = s.
Proof. induction s as [|c s IH]; [reflexivity | simpl; now rewrite IH]. Qed.

(** Formatting with a pattern that is known comes down to appending. *)
Ltac format_eval := cbn [format Ascii.eqb Bool.eqb andb]; rewrite ?append_empty_r.

Lemma c_str_advance (s : string) (n : nat) :
  Str.nul_free s -> Str.c_str (Str.advance s n) = Str.advance s n.
Proof.
  unfold Str.nul_free. revert n.
  induction s as [|c s IH]; intros n H.
  - destruct n; reflexivity.
  - destruct n as [|n]; [exact H|].
    simpl in H. destruct (Ascii.eqb c zero); [discriminate|].
    injection H as H. simpl. apply IH. exact H.
Qed.

Lemma advance_all (s : string) : Str.advance s (String.length s) = EmptyString.
Proof. induction s as [|c s IH]; [reflexivity | exact IH]. Qed.

Lemma starts_with_self (s : string) : Str.starts_with s s = true.
Proof.
  unfold Str.starts_with.
  induction s as [|c s IH]; [reflexivity|].
  simpl. destruct (ascii_dec c c); [exact IH | congruence].
Qed.

(** C2, for a path that does not start with the root: the key is the
    prefix, a '/', and the path.  Nothing is said here of a path under the
    root. *)
Theorem get_key_spec (B : Type) (fs : S3FileSystem B) (p : Path) :
  Str.starts_with p (_root_path fs) = false ->
  get_key fs p = prefix (_s3_conf fs) ++ "/" ++ p.
Proof.
  intros Hrel. unfold get_key. rewrite Hrel. format_eval. reflexivity.
Qed.

Lemma get_key_spec_witness :
  Str.starts_with "dir/a" (_root_path Mock.fs) = false
  /\ get_key Mock.fs "dir/a" = "data" ++ "/" ++ "dir/a".
Proof.
  split; [reflexivity|].
  apply (get_key_spec _ Mock.fs "dir/a"). reflexivity.
Defined.

(** C2, as stated, fails: between the prefix and the rest there is a '/'. *)
Lemma get_key_not_bare_concat :
  Str.starts_with "dir/a" (_root_path Mock.fs) = false
  /\ get_key Mock.fs "dir/a" <> prefix (_s3_conf Mock.fs) ++ "dir/a".
Proof. split; [reflexivity | discriminate]. Qed.

(** Under the root the same '/' is put in, also before a remainder that
    brings its own: the object at root/dir/a gets a key with two slashes,
    which is not the key of the relative path dir/a. *)
Lemma get_key_under_root_double_slash :
  get_key Mock.fs (_root_path Mock.fs ++ "/dir/a") = "data//dir/a"
  /\ get_key Mock.fs "dir/a" = "data/dir/a".
Proof. split; reflexivity. Qed.

(** ** The constructor *)

Lemma ctor_root_path (B : Type) (c : S3Conf) (id : string) :
  _root_path (create (B:=B) c id)
  = endpoint c ++ "/" ++ bucket c ++ "/" ++ prefix c.
Proof. unfold create, S3FileSystem_ctor. cbn [_root_path]. format_eval. reflexivity. Qed.

(** C7 at a prefix with two slashes at each end: the constructor takes one
    off each end, so the stored prefix still starts and ends with '/'; the
    root path is built from the prefix as it was supplied. *)
Theorem ctor_strips_one_slash_only :
  let fs := create (B:=Mock.Store) (with_prefix Mock.conf "//data//") "s3_fs" in
  prefix (_s3_conf fs) = "/data/"
  /\ _root_path fs = "s3.example.com/warehouse///data//".
Proof. split; reflexivity. Qed.

(** ** The client guard *)

Lemma world_eta (B : Type) (w : World B) :
  {| backend := backend w; calls := calls w; bthread := bthread w |} = w.
Proof. destruct w; reflexivity. Qed.

(** The operations that check the client answer the internal error and
    issue nothing when there is none. *)
Lemma guarded_operations_fail_fast (B : Type) (fs : S3FileSystem B)
    (w : World B) :
  get_client fs = None ->
  (forall p res, exists_ fs p res w = ((CHECK_S3_CLIENT_error, res), w))
  /\ (forall p n, file_size fs p n w = ((CHECK_S3_CLIENT_error, n), w))
  /\ (forall p, delete_file fs p w = (CHECK_S3_CLIENT_error, w))
  /\ (forall fuel p,
         delete_directory fuel fs p w = (Returns CHECK_S3_CLIENT_error, w))
  /\ (forall fuel p files,
         list_ fuel fs p files w = ((Returns CHECK_S3_CLIENT_error, files), w))
  /\ (forall ps, batch_delete fs ps w = (Returns CHECK_S3_CLIENT_error, w))
  /\ (forall disk l d,
         upload disk fs l d w = (Returns CHECK_S3_CLIENT_error, w))
  /\ (forall ls ds, batch_upload fs ls ds w = (CHECK_S3_CLIENT_error, w)).
Proof.
  intros Hnone.
  unfold exists_, file_size, delete_file, delete_directory, list_,
    batch_delete, upload, batch_upload, exists_impl, file_size_impl,
    delete_file_impl, delete_directory_impl, upload_impl, batch_upload_impl,
    bind, bthread_self, run_task, ret.
  rewrite Hnone.
  repeat split; intros; destruct (bthread w =? 0)%Z;
    cbn [backend calls]; rewrite ?world_eta; reflexivity.
Qed.

(** C3 at [create_file]: without a client it does not fail; it answers OK,
    issues nothing, and hands out a writer bound to the absent client. *)
Theorem create_file_without_client (B : Type) (fs : S3FileSystem B)
    (path : Path) (writer : option (S3FileWriter B)) (w : World B) :
  get_client fs = None ->
  create_file fs path writer w
  = ((OK,
      Some {| writer_path := get_key fs path; writer_client := None;
              writer_s3_conf := _s3_conf fs |}),
     w).
Proof.
  intros Hnone.
  unfold create_file, create_file_impl, bind, bthread_self, run_task, ret.
  rewrite Hnone.
  destruct (bthread w =? 0)%Z; cbn [backend calls]; rewrite ?world_eta;
    reflexivity.
Qed.

Lemma create_file_without_client_witness :
  get_client Mock.fs0 = None
  /\ fst (fst (create_file Mock.fs0 "dir/a" None (Mock.world Sample.dir3)))
     = OK.
Proof.
  split; [reflexivity|].
  rewrite (create_file_without_client _ Mock.fs0 "dir/a" None
             (Mock.world Sample.dir3) eq_refl).
  reflexivity.
Defined.

(** ** delete_file *)

(** C5: with a client, [delete_file] issues one DeleteObject for the key;
    it answers OK when the backend reports success and when it reports 404,
    and otherwise an I/O error made of endpoint, bucket, key and the
    backend's message. *)
Theorem delete_file_idempotent (B : Type) (fs : S3FileSystem B)
    (client : S3Client B) (path : Path) (w : World B) :
  get_client fs = Some client ->
  let request :=
    {| delete_bucket := bucket (_s3_conf fs);
       delete_key := get_key fs path |} in
  let outcome := fst (DeleteObject client request (backend w)) in
  let st := fst (delete_file fs path w) in
  calls (snd (delete_file fs path w)) = (calls w ++ [Call_DeleteObject request])%list
  /\ (IsSuccess outcome = true -> st = OK)
  /\ (GetResponseCode (GetError outcome) = NOT_FOUND -> st = OK)
  /\ (IsSuccess outcome = false ->
      GetResponseCode (GetError outcome) <> NOT_FOUND ->
      st = IOError
             ("failed to delete object(endpoint=" ++ endpoint (_s3_conf fs)
                ++ ", bucket=" ++ bucket (_s3_conf fs)
                ++ ", key=" ++ get_key fs path
                ++ "): " ++ GetMessage (GetError outcome))).
Proof.
  intros Hclient request outcome st.
  assert (Himpl : forall v,
             delete_file fs path v = delete_file_impl fs path v).
  { intros v.
    unfold delete_file, bind, bthread_self.
    destruct (bthread v =? 0)%Z; [reflexivity|].
    unfold run_task, delete_file_impl, bind, call_DeleteObject, logged, ret.
    rewrite Hclient. cbn [backend calls bthread].
    destruct (DeleteObject client _ (backend v)) as [o b].
    destruct (IsSuccess o || _)%bool; reflexivity. }
  subst st. rewrite Himpl.
  unfold delete_file_impl, bind, call_DeleteObject, logged, ret.
  rewrite Hclient. fold request.
  subst outcome. destruct (DeleteObject client request (backend w)) as [o b].
  cbn [fst snd].
  repeat split.
  - destruct (IsSuccess o || _)%bool; reflexivity.
  - intros ->. reflexivity.
  - intros ->. rewrite Z.eqb_refl, orb_true_r. reflexivity.
  - intros -> Hcode. apply Z.eqb_neq in Hcode. rewrite Hcode.
    cbn [orb fst]. format_eval. reflexivity.
Qed.

Lemma delete_file_idempotent_witness :
  fst (delete_file Mock.fs "dir/a" (Mock.world Sample.dir3)) = OK
  /\ fst (delete_file Mock.fs "dir/none" (Mock.world Sample.dir3)) = OK.
Proof.
  destruct (delete_file_idempotent _ Mock.fs Mock.client "dir/a"
              (Mock.world Sample.dir3) eq_refl) as (_ & Hdone & _).
  destruct (delete_file_idempotent _ Mock.fs Mock.client "dir/none"
              (Mock.world Sample.dir3) eq_refl) as (_ & _ & Hmissing & _).
  split; [apply Hdone | apply Hmissing]; reflexivity.
Defined.

(** ** file_size and open_file *)

Lemma Status_ok_iff (st : Status) : Status_ok st = true <-> st = OK.
Proof. destruct st; simpl; split; congruence. Qed.

(** The size probe: one HeadObject; the content length on success, and
    otherwise an I/O error, the caller's variable left as it was. *)
Lemma file_size_probe (B : Type) (fs : S3FileSystem B) (client : S3Client B)
    (path : Path) (n : Z) (w : World B) :
  get_client fs = Some client ->
  let request :=
    {| head_bucket := bucket (_s3_conf fs); head_key := get_key fs path |} in
  let outcome := fst (HeadObject client request (backend w)) in
  file_size fs path n w
  = ((if IsSuccess outcome
      then (OK, to_size_t (GetContentLength (GetResult outcome)))
      else (IOError
              ("failed to get object size(endpoint=" ++ endpoint (_s3_conf fs)
                 ++ ", bucket=" ++ bucket (_s3_conf fs)
                 ++ ", key=" ++ get_key fs path
                 ++ "): " ++ GetMessage (GetError outcome)), n)),
     {| backend := snd (HeadObject client request (backend w));
        calls := (calls w ++ [Call_HeadObject request])%list;
        bthread := bthread w |}).
Proof.
  intros Hclient request outcome. subst outcome.
  unfold file_size, file_size_impl, bind, bthread_self, run_task,
    call_HeadObject, logged, ret.
  rewrite Hclient. fold request.
  destruct (bthread w =? 0)%Z; cbn beta iota delta [backend calls bthread];
    destruct (HeadObject client request (backend w)) as [o b]; cbn [fst snd];
    destruct (IsSuccess o); format_eval; reflexivity.
Qed.

Lemma open_file_run (B : Type) (fs : S3FileSystem B) (path : Path)
    (reader : option (S3FileReader B)) (w : World B) :
  open_file fs path reader w
  = (if negb (Status_ok (fst (fst (file_size fs path 0%Z w))))
     then (fst (fst (file_size fs path 0%Z w)), reader)
     else (OK,
           Some {| reader_path :=
                     Path_append
                       (Path_append (endpoint (_s3_conf fs))
                                    (bucket (_s3_conf fs)))
                       (get_key fs path);
                   reader_file_size := snd (fst (file_size fs path 0%Z w));
                   reader_key := get_key fs path;
                   reader_bucket := bucket (_s3_conf fs);
                   reader_fs := fs |}),
     snd (file_size fs path 0%Z w)).
Proof.
  unfold open_file, open_file_impl, file_size, bind, bthread_self, run_task,
    ret.
  cbn [backend calls bthread].
  destruct (bthread w =? 0)%Z eqn:Hself.
  - rewrite Hself.
    destruct (file_size_impl fs path 0%Z w) as [[s n] w1]. cbn [fst snd].
    destruct (negb (Status_ok s)); reflexivity.
  - cbn [Z.eqb].
    destruct (file_size_impl fs path 0%Z _) as [[s n] w1]. cbn [fst snd].
    destruct (negb (Status_ok s)); reflexivity.
Qed.

(** C8: [open_file] runs the size probe first and issues nothing else.  When
    the probe fails, its status is the answer and the caller's reader is
    left as it was: the internal error without a client, and with a client
    the I/O error of the failed HeadObject, a missing key included.  When
    the HeadObject succeeds, the answer is OK with a reader that carries the
    key, the content length the backend reported (as a [size_t]), the bucket
    and the file system. *)
Theorem open_file_probes_size (B : Type) (fs : S3FileSystem B) (path : Path)
    (reader : option (S3FileReader B)) (w : World B) :
  let probe := file_size fs path 0%Z w in
  let st := fst (fst probe) in
  (st <> OK -> open_file fs path reader w = ((st, reader), snd probe))
  /\ (get_client fs = None ->
      open_file fs path reader w = ((CHECK_S3_CLIENT_error, reader), w))
  /\ (forall client : S3Client B,
        get_client fs = Some client ->
        let request :=
          {| head_bucket := bucket (_s3_conf fs);
             head_key := get_key fs path |} in
        let outcome := fst (HeadObject client request (backend w)) in
        let probed :=
          {| backend := snd (HeadObject client request (backend w));
             calls := (calls w ++ [Call_HeadObject request])%list;
             bthread := bthread w |} in
        (IsSuccess outcome = false ->
         open_file fs path reader w
         = ((IOError
               ("failed to get object size(endpoint="
                  ++ endpoint (_s3_conf fs)
                  ++ ", bucket=" ++ bucket (_s3_conf fs)
                  ++ ", key=" ++ get_key fs path
                  ++ "): " ++ GetMessage (GetError outcome)), reader),
            probed))
        /\ (IsSuccess outcome = true ->
            open_file fs path reader w
            = ((OK,
                Some {| reader_path :=
                          Path_append
                            (Path_append (endpoint (_s3_conf fs))
                                         (bucket (_s3_conf fs)))
                            (get_key fs path);
                        reader_file_size :=
                          (GetContentLength (GetResult outcome) mod 2 ^ 64)%Z;
                        reader_key := get_key fs path;
                        reader_bucket := bucket (_s3_conf fs);
                        reader_fs := fs |}),
               probed))).
Proof.
  intros probe st. subst st probe. rewrite open_file_run.
  split; [|split].
  - intros Hst.
    destruct (Status_ok (fst (fst (file_size fs path 0%Z w)))) eqn:Hok;
      [|reflexivity].
    apply Status_ok_iff in Hok. contradiction.
  - intros Hnone.
    destruct (guarded_operations_fail_fast _ fs w Hnone) as (_ & Hsize & _).
    rewrite Hsize. reflexivity.
  - intros client Hclient request outcome probed.
    rewrite (file_size_probe _ fs client path 0%Z w Hclient).
    fold request outcome probed. cbn [fst snd].
    split; intros Hout; rewrite Hout; reflexivity.
Qed.

Lemma open_file_probes_size_witness :
  (exists r,
      fst (open_file Mock.fs "full" None
             (Mock.world
                (Mock.store [Mock.obj "data/empty" 0; Mock.obj "data/full" 42])))
      = (OK, Some r)
      /\ reader_file_size r = 42%Z /\ reader_key r = "data/full")
  /\ (exists r,
         fst (open_file Mock.fs "empty" None
                (Mock.world
                   (Mock.store
                      [Mock.obj "data/empty" 0; Mock.obj "data/full" 42])))
         = (OK, Some r)
         /\ reader_file_size r = 0%Z /\ reader_key r = "data/empty")
  /\ fst (open_file Mock.fs "none" None
            (Mock.world
               (Mock.store [Mock.obj "data/empty" 0; Mock.obj "data/full" 42])))
     = (IOError
          "failed to get object size(endpoint=s3.example.com, bucket=warehouse, key=data/none): Not Found",
        None)
  /\ fst (open_file Mock.fs0 "full" None
            (Mock.world
               (Mock.store [Mock.obj "data/empty" 0; Mock.obj "data/full" 42])))
     = (CHECK_S3_CLIENT_error, None).
Proof.
  pose (w := Mock.world
               (Mock.store [Mock.obj "data/empty" 0; Mock.obj "data/full" 42])).
  destruct (open_file_probes_size _ Mock.fs "full" None w)
    as (_ & _ & Hfull).
  destruct (open_file_probes_size _ Mock.fs "empty" None w)
    as (_ & _ & Hempty).
  destruct (open_file_probes_size _ Mock.fs "none" None w)
    as (_ & _ & Hnone).
  destruct (open_file_probes_size _ Mock.fs0 "full" None w)
    as (_ & Hguard & _).
  unfold w in *. clear w.
  split; [|split; [|split]].
  - eexists. rewrite (proj2 (Hfull Mock.client eq_refl) eq_refl).
    repeat split.
  - eexists. rewrite (proj2 (Hempty Mock.client eq_refl) eq_refl).
    repeat split.
  - rewrite (proj1 (Hnone Mock.client eq_refl) eq_refl). reflexivity.
  - rewrite (Hguard eq_refl). reflexivity.
Defined.

(** ** batch_delete *)

(** C9: with a client and no paths, [batch_delete] answers OK and the world
    is as before: nothing was issued. *)
Theorem batch_delete_nil (B : Type) (fs : S3FileSystem B)
    (client : S3Client B) (w : World B) :
  get_client fs = Some client ->
  batch_delete fs [] w = (Returns OK, w).
Proof.
  intros Hclient. unfold batch_delete. rewrite Hclient. reflexivity.
Qed.

Lemma batch_delete_nil_witness :
  batch_delete Mock.fs [] (Mock.world Sample.dir3)
  = (Returns OK, Mock.world Sample.dir3).
Proof.
  exact (batch_delete_nil _ Mock.fs Mock.client (Mock.world Sample.dir3)
           eq_refl).
Defined.

Lemma take_batch_firstn (B : Type) (fs : S3FileSystem B) (room : nat) :
  forall (path_iter : list Path) (objects : list ObjectIdentifier),
    take_batch fs room path_iter objects
    = ((objects
          ++ map (fun p => {| id_key := get_key fs p |}) (firstn room path_iter))%list,
       skipn room path_iter).
Proof.
  induction room as [|room IH]; intros path_iter objects.
  - cbn. rewrite app_nil_r. destruct path_iter; reflexivity.
  - destruct path_iter as [|p ps].
    + cbn. rewrite app_nil_r. reflexivity.
    + cbn [take_batch firstn skipn map]. rewrite IH, <- app_assoc. reflexivity.
Qed.

Lemma rounds_left (l : list Path) (fuel : nat) :
  length l / max_delete_batch < S fuel ->
  Vec.empty (skipn max_delete_batch l) = false ->
  length (skipn max_delete_batch l) / max_delete_batch < fuel.
Proof.
  intros Hfuel Hmore.
  assert (Hlen : max_delete_batch <= length l).
  { destruct (Nat.le_gt_cases max_delete_batch (length l)) as [Hle|Hgt];
      [exact Hle|].
    rewrite skipn_all2 in Hmore by lia. discriminate. }
  rewrite length_skipn.
  replace (length l)
    with ((length l - max_delete_batch) + 1 * max_delete_batch) in Hfuel
    by lia.
  rewrite Nat.div_add in Hfuel by discriminate. lia.
Qed.

(** The rounds that [batch_delete] allows for are enough: the loop has
    always ended by then. *)
Lemma batch_delete_loop_ends (B : Type) (fs : S3FileSystem B)
    (client : S3Client B) (fuel : nat) :
  forall (path_iter : list Path) (delete_request : DeleteObjectsRequest)
         (w : World B),
    length path_iter / max_delete_batch < fuel ->
    fst (batch_delete_loop fuel fs client path_iter delete_request w)
    <> OutOfFuel.
Proof.
  induction fuel as [|fuel IH]; intros path_iter delete_request w Hfuel;
    [lia|].
  cbn [batch_delete_loop]. rewrite take_batch_firstn. cbn [app].
  destruct (Vec.empty (map _ (firstn max_delete_batch path_iter)));
    [discriminate|].
  unfold bind, call_DeleteObjects, logged.
  destruct (DeleteObjects client _ (backend w)) as [o b].
  destruct (IsSuccess o); cbn [negb Vec.moved_from Vec.front hd_error];
    [|discriminate].
  destruct (GetErrors (GetResult o)); [|discriminate].
  destruct (Vec.empty (skipn max_delete_batch path_iter)) eqn:Hmore;
    cbn [negb]; [discriminate|].
  apply IH. apply rounds_left; assumption.
Qed.

Lemma batch_delete_ends (B : Type) (fs : S3FileSystem B) (paths : list Path)
    (w : World B) :
  fst (batch_delete fs paths w) <> OutOfFuel.
Proof.
  unfold batch_delete. destruct (get_client fs) as [client|];
    [|discriminate].
  apply batch_delete_loop_ends. lia.
Qed.

(** Whatever the backend answers, what [batch_delete] issues is a run of
    quiet bulk deletes on the bucket, of 1 to 1000 keys each, that go
    through the keys of the paths in order; when the answer is OK they have
    gone through all of them. *)
Lemma batch_delete_loop_batches (B : Type) (fs : S3FileSystem B)
    (client : S3Client B) (fuel : nat) :
  forall (path_iter : list Path) (delete_request : DeleteObjectsRequest)
         (w : World B),
  exists batches rest,
    calls (snd (batch_delete_loop fuel fs client path_iter delete_request w))
    = (calls w
         ++ map (bulk_delete_call (objects_bucket delete_request)) batches)%list
    /\ map (fun p => {| id_key := get_key fs p |}) path_iter
       = (concat batches ++ rest)%list
    /\ Forall (fun ids => 1 <= length ids <= max_delete_batch) batches
    /\ (fst (batch_delete_loop fuel fs client path_iter delete_request w)
        = Returns OK -> rest = []).
Proof.
  induction fuel as [|fuel IH]; intros path_iter delete_request w.
  - exists [], (map (fun p => {| id_key := get_key fs p |}) path_iter).
    cbn. rewrite app_nil_r. repeat split; [constructor | discriminate].
  - cbn [batch_delete_loop]. rewrite take_batch_firstn. cbn [app].
    pose proof (firstn_skipn max_delete_batch path_iter) as Hsplit.
    pose proof (firstn_le_length max_delete_batch path_iter) as Hroom.
    set (ids := map (fun p => {| id_key := get_key fs p |})
                    (firstn max_delete_batch path_iter)) in *.
    assert (Hids : length ids <= max_delete_batch)
      by (subst ids; now rewrite length_map).
    assert (Hkeys : map (fun p => {| id_key := get_key fs p |}) path_iter
                    = (ids ++ map (fun p => {| id_key := get_key fs p |})
                                  (skipn max_delete_batch path_iter))%list)
      by (subst ids; now rewrite <- map_app, Hsplit).
    destruct ids as [|i ids'] eqn:Eids.
    + exists [], (map (fun p => {| id_key := get_key fs p |}) path_iter).
      cbn. rewrite app_nil_r. repeat split; [constructor|].
      intros _. destruct path_iter; [reflexivity | discriminate].
    + cbn [Vec.empty]. unfold bind, call_DeleteObjects, logged.
      destruct (DeleteObjects client _ (backend w)) as [o b].
      assert (Hone : Forall (fun ids => 1 <= length ids <= max_delete_batch)
                            [i :: ids'])
        by (constructor; [cbn in *; lia | constructor]).
      destruct (IsSuccess o);
        cbn [negb Vec.moved_from Vec.front hd_error].
      * destruct (GetErrors (GetResult o)).
        -- destruct (Vec.empty (skipn max_delete_batch path_iter)) eqn:Hmore;
             cbn [negb].
           ++ exists [i :: ids'], []. cbn [snd fst calls map concat].
              rewrite Hkeys. destruct (skipn max_delete_batch path_iter);
                [|discriminate].
              cbn. rewrite !app_nil_r. repeat split. exact Hone.
           ++ destruct (IH (skipn max_delete_batch path_iter)
                          (SetDelete delete_request
                             {| GetObjects := i :: ids'; GetQuiet := true |})
                          {| backend := b;
                             calls :=
                               (calls w
                                  ++ [Call_DeleteObjects
                                        (SetDelete delete_request
                                           {| GetObjects := i :: ids';
                                              GetQuiet := true |})])%list;
                             bthread := bthread w |})
                as (batches & rest & Hcalls & Hrest & Hsizes & Hok).
              exists ((i :: ids') :: batches), rest.
              rewrite Hcalls. cbn [calls map concat objects_bucket SetDelete].
              rewrite Hkeys, Hrest, <- !app_assoc.
              repeat split; [constructor; [cbn in *; lia | exact Hsizes]
                            | exact Hok].
        -- exists [i :: ids'],
             (map (fun p => {| id_key := get_key fs p |})
                  (skipn max_delete_batch path_iter)).
           cbn [snd fst calls map concat]. rewrite Hkeys, app_nil_r.
           repeat split; [exact Hone | discriminate].
      * exists [i :: ids'],
          (map (fun p => {| id_key := get_key fs p |})
               (skipn max_delete_batch path_iter)).
        cbn [snd fst calls map concat]. rewrite Hkeys, app_nil_r.
        repeat split; [exact Hone | discriminate].
Qed.

(** ** list *)

Lemma list_loop_round (fuel : nat) (files : list Path) (cs : list Call) (z : Z) :
  list_loop (S fuel) Mock.fs Mock.client "data/dir/"
    (Sample.first_page "data/dir/") files
    {| backend := Sample.dir3; calls := cs; bthread := z |}
  = list_loop fuel Mock.fs Mock.client "data/dir/"
      (Sample.first_page "data/dir/") ((files ++ ["a"]) ++ ["b"])%list
      {| backend := Sample.dir3;
         calls := (cs ++ [Call_ListObjectsV2 (Sample.first_page "data/dir/")])%list;
         bthread := z |}.
Proof. reflexivity. Qed.

Lemma list_loop_refetches (fuel : nat) :
  forall (files : list Path) (cs : list Call) (z : Z),
    list_loop fuel Mock.fs Mock.client "data/dir/"
      (Sample.first_page "data/dir/") files
      {| backend := Sample.dir3; calls := cs; bthread := z |}
    = ((OutOfFuel, (files ++ concat (repeat ["a"; "b"] fuel))%list),
       {| backend := Sample.dir3;
          calls :=
            (cs ++ repeat (Call_ListObjectsV2 (Sample.first_page "data/dir/"))
                     fuel)%list;
          bthread := z |}).
Proof.
  induction fuel as [|fuel IH]; intros files cs z.
  - cbn [list_loop repeat concat]. rewrite !app_nil_r. reflexivity.
  - rewrite list_loop_round, IH. cbn [repeat concat].
    rewrite <- !app_assoc. reflexivity.
Qed.

(** C1 on a directory of three objects that the store lists two to a page:
    whatever the number of rounds, [list] has not returned; every request it
    has sent is the first one, without a continuation token, and what it has
    gathered is the first page over and over, never the third object. *)
Theorem list_refetches_first_page (fuel : nat) :
  list_ fuel Mock.fs "dir" [] (Mock.world Sample.dir3)
  = ((OutOfFuel, concat (repeat ["a"; "b"] fuel)),
     {| backend := Sample.dir3;
        calls := repeat (Call_ListObjectsV2 (Sample.first_page "data/dir/")) fuel;
        bthread := 0%Z |}).
Proof.
  change (list_ fuel Mock.fs "dir" [] (Mock.world Sample.dir3))
    with (list_loop fuel Mock.fs Mock.client "data/dir/"
            (Sample.first_page "data/dir/") []
            {| backend := Sample.dir3; calls := []; bthread := 0%Z |}).
  apply list_loop_refetches.
Qed.

(** The sibling loop carries the token: on the same store
    [delete_directory] asks for the second page after the first. *)
Lemma delete_directory_follows_token :
  let run := delete_directory 2 Mock.fs "dir" (Mock.world Sample.dir3) in
  fst run = Returns OK
  /\ filter is_Call_ListObjectsV2 (calls (snd run))
     = [Call_ListObjectsV2 (Sample.first_page "data/dir/");
        Call_ListObjectsV2
          (SetContinuationToken (Sample.first_page "data/dir/") "data/dir/b")]
  /\ Mock.objects (backend (snd run)) = [].
Proof. repeat split. Qed.

(** ** batch_delete at 2500 paths *)

(** When every bulk delete succeeds: three requests, of 1000, 1000 and 500
    keys, and every object is gone. *)
Lemma batch_delete_2500_three_calls :
  let before := Mock.store (Sample.objects_of (Sample.paths 2500)) in
  let run := batch_delete Mock.fs (Sample.paths 2500) (Mock.world before) in
  fst run = Returns OK
  /\ map bulk_delete_size (calls (snd run)) = [Some 1000; Some 1000; Some 500]%nat
  /\ Mock.objects (backend (snd run)) = [].
Proof. vm_compute. repeat split. Qed.

(** C4 at 2500 paths when the second bulk delete fails: two requests have
    been issued and the first thousand objects are gone, but no error is
    returned: the message is built from the first element of [objects]
    after that vector was moved into the request. *)
Theorem batch_delete_failure_reads_moved_vector :
  let before :=
    Mock.with_outage (Mock.store (Sample.objects_of (Sample.paths 2500)))
      (Some 1%nat) in
  let run := batch_delete Mock.fs (Sample.paths 2500) (Mock.world before) in
  fst run = Undefined "front() of an empty vector"
  /\ map bulk_delete_size (calls (snd run)) = [Some 1000; Some 1000]%nat
  /\ Mock.objects (backend (snd run))
     = Sample.objects_of (skipn 1000 (Sample.paths 2500)).
Proof. vm_compute. repeat split. Qed.

(** A per-object error is returned at once, with the key of the first
    failing object; its message is taken from the outcome's error, which is
    empty on a success, not from the entry. *)
Lemma batch_delete_per_object_error :
  let before :=
    {| Mock.objects := Mock.objects Sample.dir3; Mock.page_size := 2;
       Mock.denied := ["data/dir/b"]; Mock.outage_after := None;
       Mock.unreadable := []; Mock.transfers := [] |} in
  fst (batch_delete Mock.fs ["dir/a"; "dir/b"] (Mock.world before))
  = Returns
      (IOError
         "failed to delete objects(endpoint=s3.example.com, bucket=warehouse, key=data/dir/b): ").
Proof. reflexivity. Qed.

(** ** batch_upload *)

Lemma start_uploads_started (B : Type) (fs : S3FileSystem B)
    (tm : TransferManager B) (local_paths : list Path) :
  forall (dest_paths : list Path) (handles : list TransferHandle)
         (b : B) (cs : list Call) (z : Z),
    let jobs := combine local_paths (map (get_key fs) dest_paths) in
    let fired := started tm (bucket (_s3_conf fs)) jobs b in
    start_uploads fs tm local_paths dest_paths handles
      {| backend := b; calls := cs; bthread := z |}
    = ((handles ++ fst fired)%list,
       {| backend := snd fired;
          calls := (cs ++ map (upload_call (bucket (_s3_conf fs))) jobs)%list;
          bthread := z |}).
Proof.
  induction local_paths as [|l ls IH]; intros dest_paths handles b cs z.
  - cbn. rewrite !app_nil_r. reflexivity.
  - destruct dest_paths as [|d ds].
    + cbn. rewrite !app_nil_r. reflexivity.
    + cbn [start_uploads combine map started].
      unfold bind, call_UploadFile, logged. cbn [backend calls bthread].
      destruct (UploadFile tm l (bucket (_s3_conf fs)) (get_key fs d)
                  "text/plain" b) as [h b1].
      rewrite IH.
      destruct (started tm (bucket (_s3_conf fs))
                  (combine ls (map (get_key fs) ds)) b1) as [hs b2].
      cbn [fst snd upload_call]. rewrite <- !app_assoc. reflexivity.
Qed.

Lemma wait_uploads_waited (B : Type) (tm : TransferManager B)
    (handles : list TransferHandle) :
  forall b : B,
  exists st waited b',
    Waited tm handles b st waited b'
    /\ forall (cs : list Call) (z : Z),
         wait_uploads tm handles {| backend := b; calls := cs; bthread := z |}
         = (st,
            {| backend := b';
               calls := (cs ++ map Call_WaitUntilFinished waited)%list;
               bthread := z |}).
Proof.
  induction handles as [|h hs IH]; intros b.
  - exists OK, [], b. split; [constructor|].
    intros cs z. cbn. rewrite app_nil_r. reflexivity.
  - destruct (is_COMPLETED (GetStatus tm h (WaitUntilFinished tm h b)))
      eqn:Hdone.
    + destruct (IH (WaitUntilFinished tm h b))
        as (st & waited & b' & Hwaited & Hrun).
      exists st, (h :: waited), b'. split.
      * apply Waited_completed; assumption.
      * intros cs z. cbn [wait_uploads].
        unfold bind, call_WaitUntilFinished, logged, peek, ret.
        cbn [backend calls bthread]. rewrite Hdone. cbn [negb].
        rewrite Hrun. cbn [map]. rewrite <- app_assoc. reflexivity.
    + exists (IOError
                (GetMessage (GetLastError tm h (WaitUntilFinished tm h b)))),
        [h], (WaitUntilFinished tm h b).
      split; [apply Waited_failed; assumption|].
      intros cs z. cbn [wait_uploads].
      unfold bind, call_WaitUntilFinished, logged, peek, ret.
      cbn [backend calls bthread]. rewrite Hdone. reflexivity.
Qed.

(** The handles waited on are the first ones submitted; they are all of
    them when the answer is OK, and otherwise the last one is a handle that
    did not complete. *)
Lemma Waited_prefix (B : Type) (tm : TransferManager B)
    (handles waited : list TransferHandle) (b b' : B) (st : Status) :
  Waited tm handles b st waited b' ->
  (exists rest, handles = (waited ++ rest)%list)
  /\ (st = OK -> waited = handles)
  /\ (st <> OK ->
      exists before h,
        waited = (before ++ [h])%list
        /\ is_COMPLETED (GetStatus tm h b') = false
        /\ st = IOError (GetMessage (GetLastError tm h b'))).
Proof.
  induction 1 as [b | h hs b Hfail | h hs b st waited b' Hdone Hrest IH].
  - split; [exists []; reflexivity|]. split; [reflexivity | congruence].
  - split; [exists hs; reflexivity|]. split; [discriminate|].
    intros _. exists [], h. repeat split. exact Hfail.
  - destruct IH as ([rest Hrest'] & Hok & Herr). split; [|split].
    + exists rest. cbn. now rewrite <- Hrest'.
    + intros E. now rewrite (Hok E).
    + intros E. destruct (Herr E) as (before & h' & -> & Hst & Hmsg).
      exists (h :: before), h'. repeat split; assumption.
Qed.

(** C6: with a client, input sequences of unequal length get the
    invalid-argument error and the world is as before.  With equal lengths
    the log gains one UploadFile per pair, in order, and after all of them
    the waits: on the handles in the order of submission, up to the first
    one that has not completed, whose last error message is the I/O error
    returned; the answer is OK when every handle completed. *)
Theorem batch_upload_fires_then_waits (B : Type) (fs : S3FileSystem B)
    (client : S3Client B) (local_paths dest_paths : list Path) (w : World B) :
  get_client fs = Some client ->
  let tm := TransferManager_Create client in
  let bkt := bucket (_s3_conf fs) in
  let jobs := combine local_paths (map (get_key fs) dest_paths) in
  let fired := started tm bkt jobs (backend w) in
  (length local_paths <> length dest_paths ->
   batch_upload fs local_paths dest_paths w
   = (InvalidArgument "local_paths.size() != dest_paths.size()", w))
  /\ (length local_paths = length dest_paths ->
      exists st waited rest b',
        length jobs = length local_paths
        /\ Waited tm (fst fired) (snd fired) st waited b'
        /\ fst fired = (waited ++ rest)%list
        /\ (st = OK -> rest = [])
        /\ (st <> OK ->
            exists before h,
              waited = (before ++ [h])%list
              /\ is_COMPLETED (GetStatus tm h b') = false
              /\ st = IOError (GetMessage (GetLastError tm h b')))
        /\ batch_upload fs local_paths dest_paths w
           = (st,
              {| backend := b';
                 calls :=
                   (calls w ++ map (upload_call bkt) jobs
                      ++ map Call_WaitUntilFinished waited)%list;
                 bthread := bthread w |})).
Proof.
  intros Hclient tm bkt jobs fired. destruct w as [b cs z].
  cbn [backend calls bthread] in *.
  assert (Hdispatch : forall r : Status * World B,
             (forall z', batch_upload_impl fs local_paths dest_paths
                           {| backend := b; calls := cs; bthread := z' |}
                         = (fst r,
                            {| backend := backend (snd r);
                               calls := calls (snd r); bthread := z' |})) ->
             batch_upload fs local_paths dest_paths
               {| backend := b; calls := cs; bthread := z |}
             = (fst r,
                {| backend := backend (snd r); calls := calls (snd r);
                   bthread := z |})).
  { intros r Himpl. unfold batch_upload, bind, bthread_self, run_task.
    cbn [backend calls bthread].
    destruct (z =? 0)%Z; rewrite Himpl; reflexivity. }
  split.
  - intros Hne.
    apply (Hdispatch
             (InvalidArgument "local_paths.size() != dest_paths.size()",
              {| backend := b; calls := cs; bthread := z |})).
    intros z'. unfold batch_upload_impl. rewrite Hclient.
    apply Nat.eqb_neq in Hne. rewrite Hne. reflexivity.
  - intros Heq.
    destruct (wait_uploads_waited _ tm (fst fired) (snd fired))
      as (st & waited & b' & Hwaited & Hrun).
    destruct (Waited_prefix _ tm _ _ _ _ _ Hwaited)
      as ([rest Hrest] & Hok & Herr).
    exists st, waited, rest, b'.
    split; [|split; [|split; [|split; [|split]]]].
    + subst jobs. rewrite length_combine, length_map, <- Heq. apply Nat.min_id.
    + exact Hwaited.
    + exact Hrest.
    + intros E. specialize (Hok E). rewrite Hok in Hrest.
      rewrite <- (app_nil_r (fst fired)) in Hrest at 1.
      apply app_inv_head in Hrest. symmetry. exact Hrest.
    + exact Herr.
    + apply (Hdispatch
               (st,
                {| backend := b';
                   calls :=
                     (cs ++ map (upload_call bkt) jobs
                        ++ map Call_WaitUntilFinished waited)%list;
                   bthread := z |})).
      intros z'. unfold batch_upload_impl, bind. rewrite Hclient.
      rewrite (proj2 (Nat.eqb_eq _ _) Heq). cbn [negb].
      rewrite start_uploads_started. cbn [app]. fold tm bkt jobs fired.
      rewrite Hrun, <- app_assoc. reflexivity.
Qed.

Lemma batch_upload_fires_then_waits_witness :
  batch_upload Mock.fs ["l1"; "l2"; "l3"] ["d1"; "d2"]
    (Mock.world Sample.dir3)
  = (InvalidArgument "local_paths.size() != dest_paths.size()",
     Mock.world Sample.dir3)
  /\ exists st b',
       batch_upload Mock.fs ["l1"; "l2"] ["d1"; "d2"] (Mock.world Sample.dir3)
       = (st, b').
Proof.
  split.
  - apply (batch_upload_fires_then_waits _ Mock.fs Mock.client
             ["l1"; "l2"; "l3"] ["d1"; "d2"] (Mock.world Sample.dir3) eq_refl).
    discriminate.
  - destruct (proj2 (batch_upload_fires_then_waits _ Mock.fs Mock.client
                       ["l1"; "l2"] ["d1"; "d2"] (Mock.world Sample.dir3)
                       eq_refl) eq_refl)
      as (st & waited & rest & b' & _ & _ & _ & _ & _ & Hrun).
    exists st. eexists. exact Hrun.
Defined.

(** On the store, with a second local file that cannot be read: both
    transfers are started, then the first two handles are waited on, and the
    error of the second is the answer. *)
Lemma batch_upload_second_fails :
  let before :=
    {| Mock.objects := []; Mock.page_size := 2; Mock.denied := [];
       Mock.outage_after := None; Mock.unreadable := ["l2"];
       Mock.transfers := [] |} in
  let run :=
    batch_upload Mock.fs ["l1"; "l2"; "l3"] ["d1"; "d2"; "d3"]
      (Mock.world before) in
  fst run = IOError "Unable to open file l2"
  /\ calls (snd run)
     = [Call_UploadFile "l1" "warehouse" "data/d1" "text/plain";
        Call_UploadFile "l2" "warehouse" "data/d2" "text/plain";
        Call_UploadFile "l3" "warehouse" "data/d3" "text/plain";
        Call_WaitUntilFinished 0; Call_WaitUntilFinished 1].
Proof. split; reflexivity. Qed.

(** ** delete_directory on an empty directory *)

Lemma delete_directory_loop_empty (B : Type) (fs : S3FileSystem B)
    (client : S3Client B) (pfx : string) (n : nat)
    (request : ListObjectsV2Request) (b : B) :
  EmptyListing client n request b ->
  forall (fuel : nat) (delete_request : DeleteObjectsRequest)
         (cs : list Call) (z : Z),
    n <= fuel ->
    exists b' listed,
      length listed = n
      /\ delete_directory_loop fuel fs client pfx request delete_request
           {| backend := b; calls := cs; bthread := z |}
         = (Returns OK,
            {| backend := b';
               calls := (cs ++ map Call_ListObjectsV2 listed)%list;
               bthread := z |}).
Proof.
  induction 1 as [request b outcome Hok Hnone Hlast
                 | n request b outcome Hok Hnone Hmore Hrest IH];
    intros fuel delete_request cs z Hfuel;
    (destruct fuel as [|fuel]; [lia|]);
    cbn [delete_directory_loop];
    unfold bind, call_ListObjectsV2, logged; cbn [backend calls bthread];
    subst outcome;
    destruct (ListObjectsV2 client request b) as [o b1];
    cbn [fst snd] in *;
    rewrite Hok, Hnone; cbn [negb to_identifiers map].
  - rewrite Hlast. exists b1, [request]. split; reflexivity.
  - rewrite Hmore.
    destruct (IH fuel delete_request (cs ++ [Call_ListObjectsV2 request])%list z)
      as (b' & listed & Hlen & Hrun); [lia|].
    exists b', (request :: listed). split; [cbn; now rewrite Hlen|].
    rewrite Hrun. cbn [map]. rewrite <- app_assoc. reflexivity.
Qed.

(** C10: with a client, when the listing of the directory is a run of [n]
    successful pages without objects, [delete_directory] given at least [n]
    rounds answers OK, and what it has issued is [n] ListObjectsV2 calls:
    no bulk delete. *)
Theorem delete_directory_empty (B : Type) (fs : S3FileSystem B)
    (client : S3Client B) (path : Path) (n fuel : nat) (w : World B) :
  get_client fs = Some client ->
  EmptyListing client n
    {| list_bucket := bucket (_s3_conf fs); list_prefix := dir_prefix fs path;
       list_continuation_token := None |}
    (backend w) ->
  n <= fuel ->
  exists w' issued,
    delete_directory fuel fs path w = (Returns OK, w')
    /\ calls w' = (calls w ++ issued)%list
    /\ length issued = n
    /\ forallb is_Call_ListObjectsV2 issued = true.
Proof.
  intros Hclient Hempty Hfuel. destruct w as [b cs z].
  cbn [backend] in Hempty.
  unfold delete_directory, delete_directory_impl, bind, bthread_self, run_task.
  rewrite Hclient. cbv zeta. cbn [backend calls bthread].
  assert (Hlisted : forall listed : list ListObjectsV2Request,
             forallb is_Call_ListObjectsV2 (map Call_ListObjectsV2 listed)
             = true).
  { induction listed as [|r rs IHr]; [reflexivity | exact IHr]. }
  destruct (z =? 0)%Z; cbn [backend calls bthread].
  - destruct (delete_directory_loop_empty _ fs client (dir_prefix fs path) n _ b
                Hempty fuel
                {| objects_bucket := bucket (_s3_conf fs);
                   GetDelete := no_delete |} cs z Hfuel)
      as (b' & listed & Hlen & Hrun).
    rewrite Hrun. eexists. exists (map Call_ListObjectsV2 listed).
    repeat split; [now rewrite length_map | apply Hlisted].
  - destruct (delete_directory_loop_empty _ fs client (dir_prefix fs path) n _ b
                Hempty fuel
                {| objects_bucket := bucket (_s3_conf fs);
                   GetDelete := no_delete |} cs 0%Z Hfuel)
      as (b' & listed & Hlen & Hrun).
    rewrite Hrun. eexists. exists (map Call_ListObjectsV2 listed).
    repeat split; [now rewrite length_map | apply Hlisted].
Qed.

Lemma delete_directory_empty_witness :
  exists w' issued,
    delete_directory 1 Mock.fs "nothing" (Mock.world Sample.dir3)
    = (Returns OK, w')
    /\ calls w' = (calls (Mock.world Sample.dir3) ++ issued)%list
    /\ length issued = 1
    /\ forallb is_Call_ListObjectsV2 issued = true.
Proof.
  apply (delete_directory_empty _ Mock.fs Mock.client "nothing" 1 1
           (Mock.world Sample.dir3) eq_refl).
  - apply EmptyListing_last; reflexivity.
  - apply le_n.
Defined.

(** ** More on the constructor and the translator *)

Lemma back_cons (a : ascii) (s : string) :
  s <> EmptyString -> Str.back (String a s) = Str.back s.
Proof. destruct s; [congruence | reflexivity]. Qed.

Lemma pop_back_cons (a : ascii) (s : string) :
  s <> EmptyString -> Str.pop_back (String a s) = String a (Str.pop_back s).
Proof. destruct s; [congruence | reflexivity]. Qed.

Lemma trailing_slash_nonempty (s : string) :
  trailing_slash s = true -> s <> EmptyString.
Proof. intros H ->. discriminate. Qed.

Lemma leading_slash_pop_back (s : string) :
  leading_slash (Str.pop_back s) = true -> leading_slash s = true.
Proof.
  destruct s as [|a s]; [discriminate|].
  destruct s as [|b s]; [discriminate|]. intros H. exact H.
Qed.

Lemma back_append (s t : string) :
  t <> EmptyString -> Str.back (s ++ t) = Str.back t.
Proof.
  intros Ht. induction s as [|a s IH]; [reflexivity|].
  cbn [append]. rewrite back_cons; [exact IH|].
  destruct s; cbn; [exact Ht | discriminate].
Qed.

Lemma append_assoc (s t u : string) : (s ++ t) ++ u = s ++ t ++ u.
Proof. induction s as [|a s IH]; [reflexivity | cbn; now rewrite IH]. Qed.

Lemma prefix_cons (a b : ascii) (s t : string) :
  String.prefix (String a s) (String b t)
  = (Ascii.eqb a b && String.prefix s t)%bool.
Proof.
  change (String.prefix (String a s) (String b t))
    with (if ascii_dec a b then String.prefix s t else false).
  destruct (ascii_dec a b) as [E|E], (Ascii.eqb_spec a b);
    try congruence; reflexivity.
Qed.

Lemma prefix_append (s t : string) : String.prefix s (s ++ t) = true.
Proof.
  induction s as [|a s IH]; [destruct t; reflexivity|].
  cbn [append]. rewrite prefix_cons, Ascii.eqb_refl. exact IH.
Qed.

Lemma advance_append (s t : string) :
  Str.advance (s ++ t) (String.length s) = t.
Proof. induction s as [|a s IH]; [destruct t; reflexivity | exact IH]. Qed.

Lemma get_key_eq (B : Type) (fs : S3FileSystem B) (p : Path) :
  get_key fs p
  = prefix (_s3_conf fs) ++ "/"
      ++ (if Str.starts_with p (_root_path fs)
          then Str.c_str (Str.advance p (String.length (_root_path fs)))
          else p).
Proof.
  unfold get_key. destruct (Str.starts_with p (_root_path fs));
    format_eval; reflexivity.
Qed.

Lemma ctor_prefix (B : Type) (c : S3Conf) (id : string) :
  prefix (_s3_conf (create (B:=B) c id))
  = without_trailing_slash (without_leading_slash (prefix c)).
Proof.
  unfold create, S3FileSystem_ctor. cbn [_s3_conf].
  destruct c as [a k e r b p]. cbn [prefix].
  assert (Hback : forall conf : S3Conf,
    prefix (if (negb (Str.empty (prefix conf))
                && Str.is_char (Str.back (prefix conf)) "/")%bool
            then with_prefix conf (Str.pop_back (prefix conf)) else conf)
    = without_trailing_slash (prefix conf)).
  { intros conf. unfold without_trailing_slash, trailing_slash.
    destruct (prefix conf) as [|x q] eqn:E; [cbn; now rewrite E|].
    cbn [Str.empty negb andb].
    destruct (Str.is_char (Str.back (String x q)) "/"); [reflexivity|].
    exact E. }
  destruct p as [|x p]; [reflexivity|].
  cbn [Str.empty negb andb Str.front Str.is_char without_leading_slash].
  destruct (Ascii.eqb x "/"); cbn [Str.substr]; rewrite Hback;
    [destruct p|]; reflexivity.
Qed.

Lemma without_leading_slash_clean (s : string) :
  Str.starts_with s "//" = false ->
  leading_slash (without_leading_slash s) = false.
Proof.
  unfold Str.starts_with, leading_slash. intros H.
  destruct s as [|x s]; [reflexivity|]. cbn [without_leading_slash].
  destruct (Ascii.eqb x "/") eqn:Hx; [|cbn; exact Hx].
  apply Ascii.eqb_eq in Hx. subst x.
  destruct s as [|y s]; [reflexivity|].
  rewrite !prefix_cons, Ascii.eqb_refl in H.
  replace (String.prefix EmptyString s) with true in H
    by (destruct s; reflexivity).
  cbn [andb] in H. rewrite andb_true_r in H.
  cbn [Str.front Str.is_char]. rewrite Ascii.eqb_sym. exact H.
Qed.

Lemma without_leading_slash_trailing (s : string) :
  double_trailing_slash (without_leading_slash s) = true ->
  double_trailing_slash s = true.
Proof.
  destruct s as [|x s]; [discriminate|]. cbn [without_leading_slash].
  destruct (Ascii.eqb x "/"); [|trivial].
  unfold double_trailing_slash, trailing_slash. intros H.
  apply andb_prop in H. destruct H as [H1 H2].
  assert (Hs : s <> EmptyString) by (intros ->; discriminate).
  assert (Hp : Str.pop_back s <> EmptyString)
    by (intros E; rewrite E in H2; discriminate).
  rewrite pop_back_cons, !back_cons, H1, H2 by assumption. reflexivity.
Qed.

Lemma without_trailing_slash_clean (s : string) :
  leading_slash s = false ->
  double_trailing_slash s = false ->
  leading_slash (without_trailing_slash s) = false
  /\ trailing_slash (without_trailing_slash s) = false.
Proof.
  unfold without_trailing_slash, double_trailing_slash.
  intros Hl Ht. destruct (trailing_slash s) eqn:E; [|split; assumption].
  cbn [andb] in Ht. split; [|exact Ht].
  destruct (leading_slash (Str.pop_back s)) eqn:E'; [|reflexivity].
  apply leading_slash_pop_back in E'. congruence.
Qed.

(** X1: for a supplied prefix that does not start with two slashes and does
    not end with two slashes, the constructor stores a prefix that neither
    starts nor ends with '/'; endpoint and bucket are kept, and the root path
    is endpoint/bucket/prefix with the prefix as it was supplied. *)
Theorem ctor_normalises_single_slashes (B : Type) (c : S3Conf) (id : string) :
  Str.starts_with (prefix c) "//" = false ->
  double_trailing_slash (prefix c) = false ->
  let fs := create (B:=B) c id in
  leading_slash (prefix (_s3_conf fs)) = false
  /\ trailing_slash (prefix (_s3_conf fs)) = false
  /\ _root_path fs = endpoint c ++ "/" ++ bucket c ++ "/" ++ prefix c.
Proof.
  intros Hlead Htrail fs. subst fs. rewrite ctor_prefix, ctor_root_path.
  destruct (without_trailing_slash_clean (without_leading_slash (prefix c)))
    as [H1 H2].
  - apply without_leading_slash_clean. exact Hlead.
  - destruct (double_trailing_slash (without_leading_slash (prefix c))) eqn:E;
      [|reflexivity].
    apply without_leading_slash_trailing in E. congruence.
  - repeat split; assumption.
Qed.

Lemma ctor_normalises_single_slashes_witness :
  let fs := create (B:=Mock.Store) (with_prefix Mock.conf "/data/") "s3_fs" in
  leading_slash (prefix (_s3_conf fs)) = false
  /\ trailing_slash (prefix (_s3_conf fs)) = false
  /\ _root_path fs = "s3.example.com/warehouse//data/".
Proof.
  exact (ctor_normalises_single_slashes Mock.Store
           (with_prefix Mock.conf "/data/") "s3_fs" eq_refl eq_refl).
Defined.

Lemma key_under_prefix (B : Type) (fs : S3FileSystem B) (p : Path) :
  Str.starts_with (get_key fs p) (prefix (_s3_conf fs) ++ "/") = true.
Proof.
  rewrite get_key_eq. unfold Str.starts_with.
  rewrite <- append_assoc. apply prefix_append.
Qed.

(** X3: a path written under the root and the same path written relative to
    it get the same key, provided the relative form holds no NUL character
    and does not itself start with the root. *)
Theorem get_key_absolute_relative (B : Type) (fs : S3FileSystem B) (r : Path) :
  Str.nul_free r ->
  Str.starts_with r (_root_path fs) = false ->
  get_key fs (_root_path fs ++ r) = get_key fs r
  /\ get_key fs r = prefix (_s3_conf fs) ++ "/" ++ r.
Proof.
  intros Hnul Hrel. rewrite !get_key_eq, Hrel. unfold Str.starts_with.
  rewrite prefix_append, advance_append, Hnul. split; reflexivity.
Qed.

Lemma get_key_absolute_relative_witness :
  get_key Mock.fs ("s3.example.com/warehouse/data" ++ "/dir/a")
  = get_key Mock.fs "/dir/a"
  /\ get_key Mock.fs "/dir/a" = "data" ++ "/" ++ "/dir/a".
Proof.
  exact (get_key_absolute_relative _ Mock.fs "/dir/a" eq_refl eq_refl).
Defined.

(** ** The listing prefix of a directory *)

Lemma prefix_app_r (r p t : string) :
  String.prefix r p = true -> String.prefix r (p ++ t) = true.
Proof.
  revert r. induction p as [|a p IH]; intros r H.
  - destruct r; [destruct t; reflexivity | discriminate].
  - destruct r as [|b r]; [reflexivity|].
    cbn [append]. rewrite prefix_cons in *.
    apply andb_prop in H. destruct H as [H1 H2].
    rewrite H1, (IH _ H2). reflexivity.
Qed.

Lemma dir_prefix_eq (B : Type) (fs : S3FileSystem B) (p : Path) :
  dir_prefix fs p
  = if trailing_slash (get_key fs p) then get_key fs p
    else get_key fs p ++ "/".
Proof.
  unfold dir_prefix, trailing_slash, Str.push_back.
  rewrite get_key_eq.
  destruct (prefix (_s3_conf fs)); cbn [append Str.empty negb andb];
    destruct (Str.is_char _ "/"); reflexivity.
Qed.

(** X2: whatever the path, its key lies under the stored prefix: it starts
    with the prefix followed by '/'.  So does the prefix that
    [delete_directory] and [list] hand to the listing, and that one ends
    with '/'. *)
Theorem keys_under_prefix (B : Type) (fs : S3FileSystem B) (p : Path) :
  Str.starts_with (get_key fs p) (prefix (_s3_conf fs) ++ "/") = true
  /\ Str.starts_with (dir_prefix fs p) (prefix (_s3_conf fs) ++ "/") = true
  /\ trailing_slash (dir_prefix fs p) = true.
Proof.
  pose proof (key_under_prefix B fs p) as Hkey.
  split; [exact Hkey|]. rewrite dir_prefix_eq.
  destruct (trailing_slash (get_key fs p)) eqn:E.
  - split; [exact Hkey | exact E].
  - split.
    + unfold Str.starts_with in *. apply prefix_app_r. exact Hkey.
    + unfold trailing_slash. rewrite back_append by discriminate. reflexivity.
Qed.

(** X4: for a relative path that does not end with '/', the path and the
    path followed by '/' name the same directory: [delete_directory] and
    [list] behave the same on both. *)
Theorem directory_trailing_slash (B : Type) (fs : S3FileSystem B) (p : Path)
    (c : ascii) (fuel : nat) (files : list Path) (w : World B) :
  Str.starts_with (p ++ "/") (_root_path fs) = false ->
  Str.back p = Some c ->
  c <> "/"%char ->
  dir_prefix fs (p ++ "/") = prefix (_s3_conf fs) ++ "/" ++ p ++ "/"
  /\ delete_directory fuel fs (p ++ "/") w = delete_directory fuel fs p w
  /\ list_ fuel fs (p ++ "/") files w = list_ fuel fs p files w.
Proof.
  intros Hrel Hback Hc.
  assert (Hrel' : Str.starts_with p (_root_path fs) = false).
  { destruct (Str.starts_with p (_root_path fs)) eqn:E; [|reflexivity].
    unfold Str.starts_with in *.
    rewrite (prefix_app_r _ _ "/" E) in Hrel. discriminate. }
  assert (Hp : p <> EmptyString) by (intros ->; discriminate).
  assert (Hslash : dir_prefix fs (p ++ "/")
                   = prefix (_s3_conf fs) ++ "/" ++ p ++ "/").
  { rewrite dir_prefix_eq, get_key_eq, Hrel. unfold trailing_slash.
    rewrite <- !append_assoc, back_append by discriminate. reflexivity. }
  assert (Hplain : dir_prefix fs p
                   = prefix (_s3_conf fs) ++ "/" ++ p ++ "/").
  { rewrite dir_prefix_eq, get_key_eq, Hrel'. unfold trailing_slash.
    rewrite <- append_assoc, back_append, Hback by exact Hp.
    cbn [Str.is_char]. apply Ascii.eqb_neq in Hc. rewrite Hc.
    rewrite !append_assoc. reflexivity. }
  split; [exact Hslash|].
  unfold delete_directory, delete_directory_impl, list_.
  rewrite Hslash, Hplain. split; reflexivity.
Qed.

Lemma directory_trailing_slash_witness :
  dir_prefix Mock.fs ("dir" ++ "/") = "data" ++ "/" ++ "dir" ++ "/"
  /\ delete_directory 3 Mock.fs ("dir" ++ "/") (Mock.world Sample.dir3)
     = delete_directory 3 Mock.fs "dir" (Mock.world Sample.dir3)
  /\ list_ 3 Mock.fs ("dir" ++ "/") [] (Mock.world Sample.dir3)
     = list_ 3 Mock.fs "dir" [] (Mock.world Sample.dir3).
Proof.
  apply (directory_trailing_slash _ Mock.fs "dir" "r"%char 3 []
           (Mock.world Sample.dir3) eq_refl eq_refl).
  discriminate.
Defined.

(** ** exists, file_size and upload *)

Lemma exists_probe (B : Type) (fs : S3FileSystem B) (client : S3Client B)
    (path : Path) (res : bool) (w : World B) :
  get_client fs = Some client ->
  let request :=
    {| head_bucket := bucket (_s3_conf fs); head_key := get_key fs path |} in
  let outcome := fst (HeadObject client request (backend w)) in
  exists_ fs path res w
  = ((if IsSuccess outcome then (OK, true)
      else if (GetResponseCode (GetError outcome) =? NOT_FOUND)%Z
           then (OK, false)
           else (IOError
                   ("failed to get object head(endpoint="
                      ++ endpoint (_s3_conf fs)
                      ++ ", bucket=" ++ bucket (_s3_conf fs)
                      ++ ", key=" ++ get_key fs path
                      ++ "): " ++ GetMessage (GetError outcome)), res)),
     {| backend := snd (HeadObject client request (backend w));
        calls := (calls w ++ [Call_HeadObject request])%list;
        bthread := bthread w |}).
Proof.
  intros Hclient request outcome. subst outcome.
  unfold exists_, exists_impl, bind, bthread_self, run_task,
    call_HeadObject, logged, ret.
  rewrite Hclient. fold request.
  destruct (bthread w =? 0)%Z; cbn beta iota delta [backend calls bthread];
    destruct (HeadObject client request (backend w)) as [o b]; cbn [fst snd];
    destruct (IsSuccess o); try reflexivity;
    destruct (GetResponseCode (GetError o) =? NOT_FOUND)%Z;
    format_eval; reflexivity.
Qed.

(** X5: with a client, [exists] issues one HeadObject for the key.  A
    success answers true, a failure with response code 404 answers false,
    both with status OK; any other failure is an I/O error made of endpoint,
    bucket, key and the backend's message, and the caller's flag is left as
    it was. *)
Theorem exists_answers (B : Type) (fs : S3FileSystem B) (client : S3Client B)
    (path : Path) (res : bool) (w : World B) :
  get_client fs = Some client ->
  let request :=
    {| head_bucket := bucket (_s3_conf fs); head_key := get_key fs path |} in
  let outcome := fst (HeadObject client request (backend w)) in
  calls (snd (exists_ fs path res w))
  = (calls w ++ [Call_HeadObject request])%list
  /\ (IsSuccess outcome = true -> fst (exists_ fs path res w) = (OK, true))
  /\ (IsSuccess outcome = false ->
      GetResponseCode (GetError outcome) = NOT_FOUND ->
      fst (exists_ fs path res w) = (OK, false))
  /\ (IsSuccess outcome = false ->
      GetResponseCode (GetError outcome) <> NOT_FOUND ->
      fst (exists_ fs path res w)
      = (IOError
           ("failed to get object head(endpoint=" ++ endpoint (_s3_conf fs)
              ++ ", bucket=" ++ bucket (_s3_conf fs)
              ++ ", key=" ++ get_key fs path
              ++ "): " ++ GetMessage (GetError outcome)), res)).
Proof.
  intros Hclient request outcome.
  rewrite (exists_probe _ fs client path res w Hclient).
  fold request outcome. cbn [fst snd calls]. repeat split.
  - intros ->. reflexivity.
  - intros -> ->. reflexivity.
  - intros -> Hcode. apply Z.eqb_neq in Hcode. rewrite Hcode. reflexivity.
Qed.

Lemma exists_answers_witness :
  fst (exists_ Mock.fs "dir/a" false (Mock.world Sample.dir3)) = (OK, true)
  /\ fst (exists_ Mock.fs "dir/none" true (Mock.world Sample.dir3))
     = (OK, false).
Proof.
  destruct (exists_answers _ Mock.fs Mock.client "dir/a" false
              (Mock.world Sample.dir3) eq_refl) as (_ & Hfound & _).
  destruct (exists_answers _ Mock.fs Mock.client "dir/none" true
              (Mock.world Sample.dir3) eq_refl) as (_ & _ & Hmissing & _).
  split; [apply Hfound | apply Hmissing]; reflexivity.
Defined.

(** X6: with a client, [file_size] issues one HeadObject for the key.  On
    success it answers the content length, as a [size_t]; on any failure,
    a 404 included, it answers an I/O error made of endpoint, bucket, key
    and the backend's message, and the caller's variable is left as it
    was. *)
Theorem file_size_answers (B : Type) (fs : S3FileSystem B)
    (client : S3Client B) (path : Path) (n : Z) (w : World B) :
  get_client fs = Some client ->
  let request :=
    {| head_bucket := bucket (_s3_conf fs); head_key := get_key fs path |} in
  let outcome := fst (HeadObject client request (backend w)) in
  calls (snd (file_size fs path n w))
  = (calls w ++ [Call_HeadObject request])%list
  /\ (IsSuccess outcome = true ->
      fst (file_size fs path n w)
      = (OK, (GetContentLength (GetResult outcome) mod 2 ^ 64)%Z))
  /\ (IsSuccess outcome = false ->
      fst (file_size fs path n w)
      = (IOError
           ("failed to get object size(endpoint=" ++ endpoint (_s3_conf fs)
              ++ ", bucket=" ++ bucket (_s3_conf fs)
              ++ ", key=" ++ get_key fs path
              ++ "): " ++ GetMessage (GetError outcome)), n)).
Proof.
  intros Hclient request outcome.
  rewrite (file_size_probe _ fs client path n w Hclient).
  fold request outcome. cbn [fst snd calls]. repeat split.
  - intros ->. reflexivity.
  - intros ->. reflexivity.
Qed.

Lemma file_size_answers_witness :
  fst (file_size Mock.fs "dir/b" 7 (Mock.world Sample.dir3)) = (OK, 2%Z)
  /\ fst (file_size Mock.fs "dir/none" 7 (Mock.world Sample.dir3))
     = (IOError
          "failed to get object size(endpoint=s3.example.com, bucket=warehouse, key=data/dir/none): Not Found",
        7%Z).
Proof.
  destruct (file_size_answers _ Mock.fs Mock.client "dir/b" 7
              (Mock.world Sample.dir3) eq_refl) as (_ & Hfound & _).
  destruct (file_size_answers _ Mock.fs Mock.client "dir/none" 7
              (Mock.world Sample.dir3) eq_refl) as (_ & _ & Hmissing).
  split; [apply Hfound | apply Hmissing]; reflexivity.
Defined.

(** X7: [exists] and [file_size] send the same request and leave the same
    world behind; [exists] answers OK and true exactly when [file_size]
    answers OK. *)
Theorem exists_agrees_with_file_size (B : Type) (fs : S3FileSystem B)
    (path : Path) (res : bool) (n : Z) (w : World B) :
  snd (exists_ fs path res w) = snd (file_size fs path n w)
  /\ (fst (exists_ fs path res w) = (OK, true)
      <-> fst (fst (file_size fs path n w)) = OK).
Proof.
  destruct (get_client fs) as [client|] eqn:Hclient.
  - rewrite (exists_probe _ fs client path res w Hclient),
      (file_size_probe _ fs client path n w Hclient).
    cbn [fst snd]. split; [reflexivity|].
    destruct (IsSuccess _); [split; reflexivity|].
    destruct (GetResponseCode _ =? NOT_FOUND)%Z; split; discriminate.
  - destruct (guarded_operations_fail_fast _ fs w Hclient)
      as (Hexists & Hsize & _).
    rewrite Hexists, Hsize. cbn [fst snd]. split; [reflexivity|].
    split; discriminate.
Qed.

Lemma upload_run (B : Type) (disk : Path -> option Z) (fs : S3FileSystem B)
    (client : S3Client B) (local_path dest_path : Path) (w : World B) :
  get_client fs = Some client ->
  let tm := TransferManager_Create client in
  let key := get_key fs dest_path in
  let fired :=
    UploadFile tm local_path (bucket (_s3_conf fs)) key "text/plain"
      (backend w) in
  let after := WaitUntilFinished tm (fst fired) (snd fired) in
  upload disk fs local_path dest_path w
  = ((if is_COMPLETED (GetStatus tm (fst fired) after) then
        match disk local_path with
        | Some _ => Returns OK
        | None => Throws (filesystem_error local_path)
        end
      else
        Returns
          (IOError
             ("failed to upload(endpoint=" ++ endpoint (_s3_conf fs)
                ++ ", bucket=" ++ bucket (_s3_conf fs)
                ++ ", key=" ++ key
                ++ "): " ++ GetMessage (GetLastError tm (fst fired) after)))),
     {| backend := after;
        calls :=
          (calls w
             ++ [Call_UploadFile local_path (bucket (_s3_conf fs)) key
                   "text/plain";
                 Call_WaitUntilFinished (fst fired)])%list;
        bthread := bthread w |}).
Proof.
  intros Hclient tm key fired after. subst after fired.
  unfold upload, upload_impl, bind, bthread_self, run_task, call_UploadFile,
    call_WaitUntilFinished, logged, peek, ret.
  rewrite Hclient. fold tm key.
  destruct (bthread w =? 0)%Z; cbn beta iota delta [backend calls bthread];
    destruct (UploadFile tm local_path (bucket (_s3_conf fs)) key
                "text/plain" (backend w)) as [h b];
    cbn [fst snd backend calls bthread];
    destruct (is_COMPLETED (GetStatus tm h (WaitUntilFinished tm h b)));
    cbn [negb]; try destruct (disk local_path);
    cbn [backend calls bthread];
    format_eval; rewrite <- app_assoc; reflexivity.
Qed.

(** X8: with a client, [upload] starts one transfer of the local file to the
    key of the destination, as text/plain, and waits for it.  When the
    transfer has not completed, it answers an I/O error made of endpoint,
    bucket, key and the transfer's last error message.  When it has
    completed, the size of the local file is asked for: the answer is OK
    when the disk gives it, and when it does not, [upload] throws the
    file-system error instead of returning a status, although the object
    has been uploaded. *)
Theorem upload_answers (B : Type) (disk : Path -> option Z)
    (fs : S3FileSystem B) (client : S3Client B) (local_path dest_path : Path)
    (w : World B) :
  get_client fs = Some client ->
  let tm := TransferManager_Create client in
  let key := get_key fs dest_path in
  let fired :=
    UploadFile tm local_path (bucket (_s3_conf fs)) key "text/plain"
      (backend w) in
  let after := WaitUntilFinished tm (fst fired) (snd fired) in
  calls (snd (upload disk fs local_path dest_path w))
  = (calls w
       ++ [Call_UploadFile local_path (bucket (_s3_conf fs)) key "text/plain";
           Call_WaitUntilFinished (fst fired)])%list
  /\ backend (snd (upload disk fs local_path dest_path w)) = after
  /\ (GetStatus tm (fst fired) after = COMPLETED ->
      disk local_path <> None ->
      fst (upload disk fs local_path dest_path w) = Returns OK)
  /\ (GetStatus tm (fst fired) after = COMPLETED ->
      disk local_path = None ->
      fst (upload disk fs local_path dest_path w)
      = Throws (filesystem_error local_path))
  /\ (GetStatus tm (fst fired) after <> COMPLETED ->
      fst (upload disk fs local_path dest_path w)
      = Returns
          (IOError
             ("failed to upload(endpoint=" ++ endpoint (_s3_conf fs)
                ++ ", bucket=" ++ bucket (_s3_conf fs)
                ++ ", key=" ++ key
                ++ "): " ++ GetMessage (GetLastError tm (fst fired) after)))).
Proof.
  intros Hclient tm key fired after.
  rewrite (upload_run _ disk fs client local_path dest_path w Hclient).
  fold tm key fired after. cbn [fst snd calls backend].
  split; [reflexivity|]. split; [reflexivity|]. split; [|split].
  - intros -> Hsize. cbn [is_COMPLETED].
    destruct (disk local_path); [reflexivity | congruence].
  - intros -> ->. reflexivity.
  - intros Hst. destruct (GetStatus tm (fst fired) after);
      try reflexivity. congruence.
Qed.

Lemma upload_answers_witness :
  fst (upload sample_disk Mock.fs "local.csv" "dir/new"
         (Mock.world Sample.dir3)) = Returns OK
  /\ fst (upload sample_disk Mock.fs "gone.csv" "dir/new"
            (Mock.world Sample.dir3))
     = Throws (filesystem_error "gone.csv")
  /\ fst (upload sample_disk Mock.fs "local.csv" "dir/new"
            (Mock.world
               {| Mock.objects := []; Mock.page_size := 2; Mock.denied := [];
                  Mock.outage_after := None;
                  Mock.unreadable := ["local.csv"];
                  Mock.transfers := [] |}))
     = Returns
         (IOError
            "failed to upload(endpoint=s3.example.com, bucket=warehouse, key=data/dir/new): Unable to open file local.csv").
Proof.
  destruct (upload_answers _ sample_disk Mock.fs Mock.client "local.csv"
              "dir/new" (Mock.world Sample.dir3) eq_refl)
    as (_ & _ & Hdone & _).
  destruct (upload_answers _ sample_disk Mock.fs Mock.client "gone.csv"
              "dir/new" (Mock.world Sample.dir3) eq_refl)
    as (_ & _ & _ & Hgone & _).
  destruct (upload_answers _ sample_disk Mock.fs Mock.client "local.csv"
              "dir/new"
              (Mock.world
                 {| Mock.objects := []; Mock.page_size := 2;
                    Mock.denied := []; Mock.outage_after := None;
                    Mock.unreadable := ["local.csv"];
                    Mock.transfers := [] |}) eq_refl)
    as (_ & _ & _ & _ & Hfailed).
  split; [|split].
  - apply Hdone; [reflexivity | discriminate].
  - apply Hgone; reflexivity.
  - rewrite Hfailed; [reflexivity | discriminate].
Defined.

(** ** A file system before and after connect *)

(** X9: a file system that has just been created has no client: the eight
    operations that check the client answer the internal error and issue
    nothing, [create_directory] answers OK and [link_file] answers
    not-supported, both without a backend call. *)
Theorem fresh_file_system_fails_fast (B : Type) (c : S3Conf) (id : string)
    (w : World B) :
  let fs := create (B:=B) c id in
  get_client fs = None
  /\ (forall p res, exists_ fs p res w = ((CHECK_S3_CLIENT_error, res), w))
  /\ (forall p n, file_size fs p n w = ((CHECK_S3_CLIENT_error, n), w))
  /\ (forall p, delete_file fs p w = (CHECK_S3_CLIENT_error, w))
  /\ (forall fuel p,
         delete_directory fuel fs p w = (Returns CHECK_S3_CLIENT_error, w))
  /\ (forall fuel p files,
         list_ fuel fs p files w = ((Returns CHECK_S3_CLIENT_error, files), w))
  /\ (forall ps, batch_delete fs ps w = (Returns CHECK_S3_CLIENT_error, w))
  /\ (forall disk l d,
         upload disk fs l d w = (Returns CHECK_S3_CLIENT_error, w))
  /\ (forall ls ds, batch_upload fs ls ds w = (CHECK_S3_CLIENT_error, w))
  /\ (forall p, create_directory fs p w = (OK, w))
  /\ (forall s d, link_file fs s d w = (NotSupported "not support", w)).
Proof.
  intros fs.
  assert (Hnone : get_client fs = None) by reflexivity.
  destruct (guarded_operations_fail_fast _ fs w Hnone)
    as (H1 & H2 & H3 & H4 & H5 & H6 & H7 & H8).
  repeat split; try assumption.
Qed.

(** X10: [connect] issues no backend call and puts in place whatever the
    client factory makes of the profile, also when the file system had a
    client before: it answers OK when that is a client, and an internal
    error naming the profile when it is none, in which case the file system
    is left without a client.  Root path, id and profile are kept. *)
Theorem connect_replaces_client (B : Type)
    (factory : S3Conf -> option (S3Client B)) (to_string : S3Conf -> string)
    (fs : S3FileSystem B) (w : World B) :
  let st := fst (fst (connect factory to_string fs w)) in
  let fs' := snd (fst (connect factory to_string fs w)) in
  snd (connect factory to_string fs w) = w
  /\ get_client fs' = factory (_s3_conf fs)
  /\ _root_path fs' = _root_path fs
  /\ _id fs' = _id fs
  /\ _s3_conf fs' = _s3_conf fs
  /\ (factory (_s3_conf fs) <> None -> st = OK)
  /\ (factory (_s3_conf fs) = None ->
      st = InternalError
             ("failed to init s3 client with " ++ to_string (_s3_conf fs))).
Proof.
  unfold connect, connect_impl, bind, bthread_self, run_task, ret.
  cbn [_client].
  destruct (bthread w =? 0)%Z; destruct (factory (_s3_conf fs)) eqn:E;
    cbn [fst snd backend calls bthread get_client _client _root_path _id
         _s3_conf];
    rewrite ?world_eta; format_eval;
    repeat split; try reflexivity; try congruence.
Qed.

Lemma connect_replaces_client_witness :
  fst (fst (connect (fun _ => Some Mock.client) region Mock.fs0
              (Mock.world Sample.dir3))) = OK
  /\ fst (fst (connect (fun _ => None) region Mock.fs
                 (Mock.world Sample.dir3)))
     = InternalError "failed to init s3 client with us-east-1".
Proof.
  destruct (connect_replaces_client _ (fun _ => Some Mock.client) region
              Mock.fs0 (Mock.world Sample.dir3))
    as (_ & _ & _ & _ & _ & Hmade & _).
  destruct (connect_replaces_client _ (fun _ => @None (S3Client Mock.Store))
              region Mock.fs (Mock.world Sample.dir3))
    as (_ & _ & _ & _ & _ & _ & Hfailed).
  split; [apply Hmade; discriminate | apply Hfailed; reflexivity].
Defined.

(** ** The path of a reader *)

(** X11: the path of the reader that [open_file] hands out is
    endpoint/bucket/key when endpoint and bucket are not empty, the endpoint
    does not end with '/', the bucket neither starts nor ends with '/', and
    the stored prefix is not empty and does not start with '/'.  When the
    stored prefix is empty the key starts with '/', and the path is the key
    alone. *)
Theorem open_file_reader_path (B : Type) (fs : S3FileSystem B) (path : Path)
    (reader : option (S3FileReader B)) (w : World B) :
  fst (fst (file_size fs path 0%Z w)) = OK ->
  exists r,
    fst (open_file fs path reader w) = (OK, Some r)
    /\ (prefix (_s3_conf fs) = EmptyString -> reader_path r = get_key fs path)
    /\ (prefix (_s3_conf fs) <> EmptyString ->
        leading_slash (prefix (_s3_conf fs)) = false ->
        endpoint (_s3_conf fs) <> EmptyString ->
        trailing_slash (endpoint (_s3_conf fs)) = false ->
        bucket (_s3_conf fs) <> EmptyString ->
        leading_slash (bucket (_s3_conf fs)) = false ->
        trailing_slash (bucket (_s3_conf fs)) = false ->
        reader_path r
        = endpoint (_s3_conf fs) ++ "/" ++ bucket (_s3_conf fs) ++ "/"
            ++ get_key fs path).
Proof.
  intros Hprobe. rewrite open_file_run, Hprobe. cbn [Status_ok negb fst].
  eexists. split; [reflexivity|]. cbn [reader_path]. split.
  - intros Hempty. rewrite get_key_eq, Hempty. reflexivity.
  - intros Hpfx Hlead Hend Hendt Hbkt Hbktl Hbktt.
    unfold leading_slash, trailing_slash in *.
    unfold Path_append at 2. rewrite Hbktl.
    destruct (endpoint (_s3_conf fs)) as [|e es] eqn:Ee; [congruence|].
    rewrite Hendt. cbn [Str.empty orb].
    unfold Path_append.
    assert (Hkey : Str.is_char (Str.front (get_key fs path)) "/" = false).
    { rewrite get_key_eq.
      destruct (prefix (_s3_conf fs)) as [|x xs]; [congruence|].
      exact Hlead. }
    rewrite Hkey.
    assert (Hback : Str.back (String e es ++ "/" ++ bucket (_s3_conf fs))
                    = Str.back (bucket (_s3_conf fs))).
    { rewrite <- append_assoc. apply back_append. exact Hbkt. }
    rewrite Hback, Hbktt. cbn [Str.empty orb append].
    rewrite !append_assoc. reflexivity.
Qed.

Lemma open_file_reader_path_witness :
  (exists r,
      fst (open_file Mock.fs "dir/a" None (Mock.world Sample.dir3))
      = (OK, Some r)
      /\ reader_path r = "s3.example.com/warehouse/data/dir/a")
  /\ (exists r,
         fst (open_file bucket_root_fs "dir/a" None
                (Mock.world (Mock.store [Mock.obj "/dir/a" 5])))
         = (OK, Some r)
         /\ reader_path r = "/dir/a").
Proof.
  split.
  - destruct (open_file_reader_path _ Mock.fs "dir/a" None
                (Mock.world Sample.dir3) eq_refl) as (r & Hopen & _ & Hpath).
    exists r. split; [exact Hopen|].
    rewrite Hpath; try reflexivity; discriminate.
  - destruct (open_file_reader_path _ bucket_root_fs "dir/a" None
                (Mock.world (Mock.store [Mock.obj "/dir/a" 5])) eq_refl)
      as (r & Hopen & Hpath & _).
    exists r. split; [exact Hopen|].
    rewrite Hpath; reflexivity.
Defined.

(** ** delete_directory when everything goes well *)

Lemma delete_directory_loop_sweeps (B : Type) (fs : S3FileSystem B)
    (client : S3Client B) (pfx : string) (n : nat)
    (request : ListObjectsV2Request) (b : B) (cs : list Call) (b' : B) :
  Swept client (bucket (_s3_conf fs)) n request b cs b' ->
  forall (fuel : nat) (delete_request : DeleteObjectsRequest)
         (cs0 : list Call) (z : Z),
    n <= fuel ->
    objects_bucket delete_request = bucket (_s3_conf fs) ->
    delete_directory_loop fuel fs client pfx request delete_request
      {| backend := b; calls := cs0; bthread := z |}
    = (Returns OK,
       {| backend := b'; calls := (cs0 ++ cs)%list; bthread := z |}).
Proof.
  induction 1 as [request b cs b' outcome Hok Hpage Hlast
                 | n request b cs b1 cs' b' outcome Hok Hpage Hmore Hrest IH];
    intros fuel delete_request cs0 z Hfuel Hbkt;
    (destruct fuel as [|fuel]; [lia|]);
    cbn [delete_directory_loop];
    unfold bind, call_ListObjectsV2, call_DeleteObjects, logged;
    cbn [backend calls bthread];
    subst outcome;
    destruct (ListObjectsV2 client request b) as [o bl];
    cbn [fst snd] in *;
    rewrite Hok; cbn [negb];
    unfold delete_page in Hpage;
    destruct (to_identifiers (GetContents (GetResult o))) as [|i ids].
  - injection Hpage as <- <-. rewrite Hlast. reflexivity.
  - unfold SetDelete. rewrite Hbkt. cbn [backend calls bthread].
    destruct (DeleteObjects client _ bl) as [d bd]. cbn [fst snd] in Hpage.
    destruct (IsSuccess d); cbn [andb negb] in *; [|discriminate].
    destruct (GetErrors (GetResult d)); cbn [Vec.empty] in Hpage;
      [|discriminate].
    injection Hpage as <- <-. cbn [backend calls bthread]. rewrite Hlast.
    rewrite <- app_assoc. reflexivity.
  - injection Hpage as <- <-. rewrite Hmore.
    rewrite (IH fuel delete_request) by (lia || assumption).
    rewrite <- app_assoc. reflexivity.
  - unfold SetDelete. rewrite Hbkt. cbn [backend calls bthread].
    destruct (DeleteObjects client _ bl) as [d bd]. cbn [fst snd] in Hpage.
    destruct (IsSuccess d); cbn [andb negb] in *; [|discriminate].
    destruct (GetErrors (GetResult d)); cbn [Vec.empty] in Hpage;
      [|discriminate].
    injection Hpage as <- <-. cbn [backend calls bthread]. rewrite Hmore.
    rewrite (IH fuel) by (lia || reflexivity).
    rewrite <- !app_assoc. reflexivity.
Qed.

(** X12: with a client, when listing the directory and deleting page by page
    goes well for [n] pages, [delete_directory] given at least [n] rounds
    answers OK; what it has issued is, page after page, the listing request
    (the first without a token, each later one with the token of the page
    before) followed by one quiet bulk delete of exactly the keys of that
    page, or by nothing for an empty page. *)
Theorem delete_directory_sweeps (B : Type) (fs : S3FileSystem B)
    (client : S3Client B) (path : Path) (n fuel : nat) (cs : list Call)
    (b' : B) (w : World B) :
  get_client fs = Some client ->
  Swept client (bucket (_s3_conf fs)) n
    {| list_bucket := bucket (_s3_conf fs); list_prefix := dir_prefix fs path;
       list_continuation_token := None |}
    (backend w) cs b' ->
  n <= fuel ->
  delete_directory fuel fs path w
  = (Returns OK,
     {| backend := b'; calls := (calls w ++ cs)%list; bthread := bthread w |}).
Proof.
  intros Hclient Hswept Hfuel. destruct w as [b cs0 z].
  cbn [backend calls bthread] in *.
  unfold delete_directory, delete_directory_impl, bind, bthread_self, run_task.
  rewrite Hclient. cbv zeta. cbn [backend calls bthread].
  destruct (z =? 0)%Z; cbn [backend calls bthread];
    rewrite (delete_directory_loop_sweeps _ fs client _ n _ b cs b' Hswept)
      by (assumption || reflexivity);
    reflexivity.
Qed.

Lemma delete_directory_sweeps_witness :
  delete_directory 2 Mock.fs "dir" (Mock.world Sample.dir3)
  = (Returns OK,
     {| backend := Mock.store [];
        calls :=
          [Call_ListObjectsV2 (Sample.first_page "data/dir/");
           bulk_delete_call "warehouse"
             [{| id_key := "data/dir/a" |}; {| id_key := "data/dir/b" |}];
           Call_ListObjectsV2
             (SetContinuationToken (Sample.first_page "data/dir/")
                "data/dir/b");
           bulk_delete_call "warehouse" [{| id_key := "data/dir/sub/c" |}]];
        bthread := 0%Z |}).
Proof.
  apply (delete_directory_sweeps _ Mock.fs Mock.client "dir" 2 2
           [Call_ListObjectsV2 (Sample.first_page "data/dir/");
            bulk_delete_call "warehouse"
              [{| id_key := "data/dir/a" |}; {| id_key := "data/dir/b" |}];
            Call_ListObjectsV2
              (SetContinuationToken (Sample.first_page "data/dir/")
                 "data/dir/b");
            bulk_delete_call "warehouse" [{| id_key := "data/dir/sub/c" |}]]
           (Mock.store []) (Mock.world Sample.dir3) eq_refl).
  - apply (Swept_more _ Mock.client "warehouse" 1
             (Sample.first_page "data/dir/") Sample.dir3
             [bulk_delete_call "warehouse"
                [{| id_key := "data/dir/a" |}; {| id_key := "data/dir/b" |}]]
             (Mock.store [Mock.obj "data/dir/sub/c" 3])
             [Call_ListObjectsV2
                (SetContinuationToken (Sample.first_page "data/dir/")
                   "data/dir/b");
              bulk_delete_call "warehouse" [{| id_key := "data/dir/sub/c" |}]]
             (Mock.store []));
      try reflexivity.
    apply (Swept_last _ Mock.client "warehouse"
             (SetContinuationToken (Sample.first_page "data/dir/")
                "data/dir/b")
             (Mock.store [Mock.obj "data/dir/sub/c" 3])
             [bulk_delete_call "warehouse" [{| id_key := "data/dir/sub/c" |}]]
             (Mock.store []));
      reflexivity.
  - apply le_n.
Defined.

(** ** list on any backend *)

Lemma substr_append (s t : string) :
  Str.substr (s ++ t) (String.length s) = Some t.
Proof. induction s as [|a s IH]; [destruct t; reflexivity | exact IH]. Qed.

Lemma substr_short (s : string) (n : nat) :
  String.length s < n -> Str.substr s n = None.
Proof.
  revert n. induction s as [|a s IH]; intros n H.
  - destruct n; [cbn in H; lia | reflexivity].
  - destruct n as [|n]; [lia|]. cbn in H |- *. apply IH. lia.
Qed.

Lemma push_back_relative_all (pfx : string) (rels : list string) :
  forall (contents : list Object) (files : list Path),
    map GetKey contents = map (append pfx) rels ->
    push_back_relative (String.length pfx) contents files
    = (None, (files ++ rels)%list).
Proof.
  induction rels as [|r rels IH]; intros contents files Hkeys;
    destruct contents as [|o contents]; try discriminate.
  - cbn. now rewrite app_nil_r.
  - cbn [map] in Hkeys. injection Hkeys as Hkey Hrest.
    cbn [push_back_relative]. rewrite Hkey, substr_append.
    rewrite (IH _ _ Hrest), <- app_assoc. reflexivity.
Qed.

Lemma push_back_relative_extends (n : nat) (contents : list Object) :
  forall files : list Path,
  exists added,
    snd (push_back_relative n contents files) = (files ++ added)%list.
Proof.
  induction contents as [|o contents IH]; intros files.
  - exists []. cbn. now rewrite app_nil_r.
  - cbn [push_back_relative]. destruct (Str.substr (GetKey o) n) as [rel|].
    + destruct (IH (files ++ [rel])%list) as [added Hadded].
      exists (rel :: added). rewrite Hadded, <- app_assoc. reflexivity.
    + exists []. cbn. now rewrite app_nil_r.
Qed.

Lemma list_loop_log (B : Type) (fs : S3FileSystem B) (client : S3Client B)
    (pfx : string) (request : ListObjectsV2Request) (fuel : nat) :
  forall (files : list Path) (w : World B),
  exists k added,
    k <= fuel
    /\ calls (snd (list_loop fuel fs client pfx request files w))
       = (calls w ++ repeat (Call_ListObjectsV2 request) k)%list
    /\ snd (fst (list_loop fuel fs client pfx request files w))
       = (files ++ added)%list.
Proof.
  induction fuel as [|fuel IH]; intros files w.
  - exists 0, []. cbn. rewrite !app_nil_r. repeat split. lia.
  - cbn [list_loop]. unfold bind, call_ListObjectsV2, logged, ret.
    destruct (ListObjectsV2 client request (backend w)) as [o b].
    destruct (IsSuccess o); cbn [negb].
    + destruct (push_back_relative_extends (String.length pfx)
                  (GetContents (GetResult o)) files) as [added Hadded].
      destruct (push_back_relative (String.length pfx)
                  (GetContents (GetResult o)) files) as [[what|] files'];
        cbn [snd] in Hadded; subst files'.
      * exists 1, added. cbn. repeat split. lia.
      * destruct (GetIsTruncated (GetResult o)).
        -- destruct (IH (files ++ added)%list
                        {| backend := b;
                           calls := (calls w ++ [Call_ListObjectsV2 request])%list;
                           bthread := bthread w |})
             as (k & more & Hk & Hcalls & Hfiles).
           exists (S k), (added ++ more)%list.
           rewrite Hcalls, Hfiles. cbn [calls repeat].
           rewrite <- !app_assoc. repeat split. lia.
        -- exists 1, added. cbn. repeat split. lia.
    + exists 1, []. cbn. rewrite app_nil_r. repeat split. lia.
Qed.

(** X13: whatever the backend answers and however long it runs, every
    request that [list] sends is the same one: bucket, directory prefix and
    no continuation token; and the caller's vector only grows: what it held
    before the call is kept in front, also when the call fails. *)
Theorem list_never_sends_token (B : Type) (fs : S3FileSystem B) (path : Path)
    (fuel : nat) (files : list Path) (w : World B) :
  exists k added,
    k <= fuel
    /\ calls (snd (list_ fuel fs path files w))
       = (calls w
            ++ repeat
                 (Call_ListObjectsV2
                    {| list_bucket := bucket (_s3_conf fs);
                       list_prefix := dir_prefix fs path;
                       list_continuation_token := None |}) k)%list
    /\ snd (fst (list_ fuel fs path files w)) = (files ++ added)%list.
Proof.
  unfold list_. destruct (get_client fs) as [client|].
  - apply list_loop_log.
  - exists 0, []. cbn. rewrite !app_nil_r. repeat split. lia.
Qed.

(** X14: with a client, when the first answer of the listing is a success
    that reports no further page and every key in it is the directory prefix
    followed by a relative name, [list] answers OK after this one request
    and appends the relative names, in the order of the page, to the
    caller's vector. *)
Theorem list_single_page (B : Type) (fs : S3FileSystem B)
    (client : S3Client B) (path : Path) (fuel : nat) (files : list Path)
    (rels : list string) (w : World B) :
  get_client fs = Some client ->
  let request :=
    {| list_bucket := bucket (_s3_conf fs); list_prefix := dir_prefix fs path;
       list_continuation_token := None |} in
  let outcome := fst (ListObjectsV2 client request (backend w)) in
  IsSuccess outcome = true ->
  GetIsTruncated (GetResult outcome) = false ->
  map GetKey (GetContents (GetResult outcome))
  = map (append (dir_prefix fs path)) rels ->
  list_ (S fuel) fs path files w
  = ((Returns OK, (files ++ rels)%list),
     {| backend := snd (ListObjectsV2 client request (backend w));
        calls := (calls w ++ [Call_ListObjectsV2 request])%list;
        bthread := bthread w |}).
Proof.
  intros Hclient request outcome Hok Hlast Hkeys. subst outcome.
  unfold list_. rewrite Hclient. fold request. cbn [list_loop].
  unfold bind, call_ListObjectsV2, logged, ret.
  destruct (ListObjectsV2 client request (backend w)) as [o b].
  cbn [fst snd] in *. rewrite Hok. cbn [negb].
  rewrite (push_back_relative_all _ rels _ _ Hkeys), Hlast. reflexivity.
Qed.

Lemma list_single_page_witness :
  list_ 1 Mock.fs "dir/sub" ["seen"] (Mock.world Sample.dir3)
  = ((Returns OK, ["seen"; "c"]),
     {| backend := Sample.dir3;
        calls := [Call_ListObjectsV2 (Sample.first_page "data/dir/sub/")];
        bthread := 0%Z |}).
Proof.
  exact (list_single_page _ Mock.fs Mock.client "dir/sub" 0 ["seen"] ["c"]
           (Mock.world Sample.dir3) eq_refl eq_refl eq_refl eq_refl).
Defined.

(** X15: with a client, when the first answer of the listing is a success
    in which, after some keys that carry the directory prefix, there is a
    key shorter than the prefix, [list] throws at that key: it does not
    return a status, and the names gathered before stay in the caller's
    vector. *)
Theorem list_short_key_throws (B : Type) (fs : S3FileSystem B)
    (client : S3Client B) (path : Path) (fuel : nat) (files : list Path)
    (good : list Object) (rels : list string) (bad : Object)
    (rest : list Object) (w : World B) :
  get_client fs = Some client ->
  let request :=
    {| list_bucket := bucket (_s3_conf fs); list_prefix := dir_prefix fs path;
       list_continuation_token := None |} in
  let outcome := fst (ListObjectsV2 client request (backend w)) in
  IsSuccess outcome = true ->
  GetContents (GetResult outcome) = (good ++ bad :: rest)%list ->
  map GetKey good = map (append (dir_prefix fs path)) rels ->
  String.length (GetKey bad) < String.length (dir_prefix fs path) ->
  exists what,
    fst (list_ (S fuel) fs path files w)
    = (Throws what, (files ++ rels)%list).
Proof.
  intros Hclient request outcome Hok Hcontents Hkeys Hshort. subst outcome.
  unfold list_. rewrite Hclient. fold request. cbn [list_loop].
  unfold bind, call_ListObjectsV2, logged, ret.
  destruct (ListObjectsV2 client request (backend w)) as [o b].
  cbn [fst snd] in *. rewrite Hok, Hcontents. cbn [negb].
  assert (Hpush : forall fs0,
             push_back_relative (String.length (dir_prefix fs path))
               (good ++ bad :: rest)%list fs0
             = (Some (out_of_range (String.length (dir_prefix fs path))
                       (String.length (GetKey bad))),
                (fs0 ++ rels)%list)).
  { clear - Hkeys Hshort. revert rels Hkeys.
    induction good as [|g good IH]; intros rels Hkeys fs0;
      destruct rels as [|r rels]; try discriminate.
    - cbn [app push_back_relative]. rewrite (substr_short _ _ Hshort).
      now rewrite app_nil_r.
    - cbn [map] in Hkeys. injection Hkeys as Hkey Hrest.
      cbn [app push_back_relative]. rewrite Hkey, substr_append.
      rewrite (IH _ Hrest), <- app_assoc. reflexivity. }
  rewrite Hpush. eexists. reflexivity.
Qed.

Lemma list_short_key_throws_witness :
  exists what,
    fst (list_ 1 (with_client short_key_client) "dir" ["seen"]
           (Mock.world Sample.dir3))
    = (Throws what, ["seen"; "x"]).
Proof.
  exact (list_short_key_throws _ (with_client short_key_client)
           short_key_client "dir" 0 ["seen"]
           [Mock.obj "data/dir/x" 1] ["x"] (Mock.obj "k" 1) []
           (Mock.world Sample.dir3) eq_refl eq_refl eq_refl eq_refl
           (proj1 (Nat.leb_le 2 9) eq_refl)).
Defined.

(** ** batch_delete on any backend *)

(** X16: with a client, [batch_delete] always comes to an end, and whatever
    the backend answers, what it issues is a run of quiet bulk deletes on
    the bucket, of 1 to 1000 keys each, that go through the keys of the
    paths in their order; when the answer is OK, they have gone through all
    of them. *)
Theorem batch_delete_issues_batches (B : Type) (fs : S3FileSystem B)
    (client : S3Client B) (paths : list Path) (w : World B) :
  get_client fs = Some client ->
  fst (batch_delete fs paths w) <> OutOfFuel
  /\ exists batches rest,
       calls (snd (batch_delete fs paths w))
       = (calls w ++ map (bulk_delete_call (bucket (_s3_conf fs))) batches)%list
       /\ map (fun p => {| id_key := get_key fs p |}) paths
          = (concat batches ++ rest)%list
       /\ Forall (fun ids => 1 <= length ids <= 1000) batches
       /\ (fst (batch_delete fs paths w) = Returns OK -> rest = []).
Proof.
  intros Hclient. split; [apply batch_delete_ends|].
  unfold batch_delete. rewrite Hclient.
  apply (batch_delete_loop_batches _ fs client
           (S (length paths / max_delete_batch)) paths
           {| objects_bucket := bucket (_s3_conf fs); GetDelete := no_delete |}
           w).
Qed.

Lemma batch_delete_issues_batches_witness :
  fst (batch_delete Mock.fs ["dir/a"; "dir/b"] (Mock.world Sample.dir3))
  <> OutOfFuel.
Proof.
  exact (proj1 (batch_delete_issues_batches _ Mock.fs Mock.client
                  ["dir/a"; "dir/b"] (Mock.world Sample.dir3) eq_refl)).
Defined.

Lemma max_delete_batch_pos : 0 < max_delete_batch.
Proof. unfold max_delete_batch. apply Nat.lt_0_succ. Qed.

Lemma batch_delete_loop_all (B : Type) (fs : S3FileSystem B)
    (client : S3Client B) :
  (forall r b,
      IsSuccess (fst (DeleteObjects client r b)) = true
      /\ GetErrors (GetResult (fst (DeleteObjects client r b))) = []) ->
  forall (fuel : nat) (path_iter : list Path)
         (delete_request : DeleteObjectsRequest) (w : World B),
    length path_iter / max_delete_batch < fuel ->
    exists batches b',
      batch_delete_loop fuel fs client path_iter delete_request w
      = (Returns OK,
         {| backend := b';
            calls :=
              (calls w
                 ++ map (bulk_delete_call (objects_bucket delete_request))
                        batches)%list;
            bthread := bthread w |})
      /\ concat batches = map (fun p => {| id_key := get_key fs p |}) path_iter
      /\ length batches
         = (length path_iter + (max_delete_batch - 1)) / max_delete_batch
      /\ Forall (fun ids => length ids = max_delete_batch)
                (removelast batches).
Proof.
  intros Halways.
  pose proof max_delete_batch_pos as Hpos.
  induction fuel as [|fuel IH]; intros path_iter delete_request w Hfuel;
    [lia|].
  cbn [batch_delete_loop]. rewrite take_batch_firstn. cbn [app].
  pose proof (firstn_skipn max_delete_batch path_iter) as Hsplit.
  destruct path_iter as [|p ps] eqn:Epath.
  - exists [], (backend w).
    replace (firstn max_delete_batch []) with (@nil Path)
      by (symmetry; apply firstn_nil).
    cbn [map Vec.empty length concat removelast ret].
    rewrite app_nil_r, world_eta.
    split; [reflexivity|]. split; [reflexivity|]. split; [|constructor].
    cbn [Nat.add]. symmetry. apply Nat.div_small. lia.
  - rewrite <- Epath in *.
    assert (Hne : firstn max_delete_batch path_iter <> []).
    { rewrite Epath. unfold max_delete_batch. discriminate. }
    destruct (map (fun p0 => {| id_key := get_key fs p0 |})
                  (firstn max_delete_batch path_iter)) as [|i ids] eqn:Eids.
    { apply map_eq_nil in Eids. contradiction. }
    cbn [Vec.empty]. unfold bind, call_DeleteObjects, logged.
    destruct (Halways
                (SetDelete delete_request
                   {| GetObjects := i :: ids; GetQuiet := true |})
                (backend w)) as [Hok Hnoerr].
    destruct (DeleteObjects client _ (backend w)) as [o b].
    cbn [fst] in Hok, Hnoerr. rewrite Hok, Hnoerr. cbn [negb].
    assert (Hkeys : map (fun p0 => {| id_key := get_key fs p0 |}) path_iter
                    = ((i :: ids)
                         ++ map (fun p0 => {| id_key := get_key fs p0 |})
                                (skipn max_delete_batch path_iter))%list).
    { rewrite <- Eids, <- map_app, Hsplit. reflexivity. }
    destruct (Vec.empty (skipn max_delete_batch path_iter)) eqn:Hmore;
      cbn [negb].
    + exists [i :: ids], b.
      assert (Hrest : skipn max_delete_batch path_iter = [])
        by (destruct (skipn max_delete_batch path_iter); [reflexivity
                                                         | discriminate]).
      rewrite Hkeys, Hrest. cbn [map concat removelast app ret].
      rewrite !app_nil_r.
      split; [reflexivity|]. split; [reflexivity|]. split; [|constructor].
      assert (Hlen : length path_iter <= max_delete_batch).
      { apply skipn_all_iff. exact Hrest. }
      assert (Hlen' : 0 < length path_iter)
        by (rewrite Epath; cbn; lia).
      replace (length path_iter + (max_delete_batch - 1))
        with ((length path_iter - 1) + 1 * max_delete_batch) by lia.
      rewrite Nat.div_add by lia. rewrite Nat.div_small by lia. reflexivity.
    + assert (Hlen : max_delete_batch < length path_iter).
      { destruct (Nat.le_gt_cases (length path_iter) max_delete_batch)
          as [Hle|Hgt]; [|exact Hgt].
        rewrite skipn_all2 in Hmore by exact Hle. discriminate. }
      destruct (IH (skipn max_delete_batch path_iter)
                  (SetDelete delete_request
                     {| GetObjects := i :: ids; GetQuiet := true |})
                  {| backend := b;
                     calls :=
                       (calls w
                          ++ [Call_DeleteObjects
                                (SetDelete delete_request
                                   {| GetObjects := i :: ids;
                                      GetQuiet := true |})])%list;
                     bthread := bthread w |})
        as (batches & b' & Hrun & Hcat & Hcount & Hfull).
      { apply rounds_left; assumption. }
      exists ((i :: ids) :: batches), b'.
      rewrite Hrun. cbn [backend calls bthread map concat objects_bucket
                         SetDelete length].
      rewrite Hkeys, Hcat, <- !app_assoc, Hcount, length_skipn.
      split; [reflexivity|]. split; [reflexivity|]. split.
      * replace (length path_iter + (max_delete_batch - 1))
          with ((length path_iter - max_delete_batch + (max_delete_batch - 1))
                + 1 * max_delete_batch) by lia.
        rewrite Nat.div_add by lia. lia.
      * destruct batches as [|b0 bs]; [constructor|].
        change (removelast ((i :: ids) :: b0 :: bs))
          with ((i :: ids) :: removelast (b0 :: bs)).
        constructor; [|exact Hfull].
        rewrite <- Eids, length_map, length_firstn. lia.
Qed.

(** X17: with a client whose bulk deletes always succeed without per-object
    errors, [batch_delete] answers OK after ceil(n / 1000) quiet bulk
    deletes for [n] paths; together they carry the keys of all the paths, in
    order, and each but the last carries exactly 1000. *)
Theorem batch_delete_all_succeed (B : Type) (fs : S3FileSystem B)
    (client : S3Client B) (paths : list Path) (w : World B) :
  get_client fs = Some client ->
  (forall r b,
      IsSuccess (fst (DeleteObjects client r b)) = true
      /\ GetErrors (GetResult (fst (DeleteObjects client r b))) = []) ->
  exists batches b',
    batch_delete fs paths w
    = (Returns OK,
       {| backend := b';
          calls :=
            (calls w
               ++ map (bulk_delete_call (bucket (_s3_conf fs))) batches)%list;
          bthread := bthread w |})
    /\ concat batches = map (fun p => {| id_key := get_key fs p |}) paths
    /\ length batches = (length paths + 999) / 1000
    /\ Forall (fun ids => length ids = 1000) (removelast batches).
Proof.
  intros Hclient Halways. unfold batch_delete. rewrite Hclient.
  apply (batch_delete_loop_all _ fs client Halways
           (S (length paths / max_delete_batch)) paths
           {| objects_bucket := bucket (_s3_conf fs); GetDelete := no_delete |}
           w).
  lia.
Qed.

Lemma batch_delete_all_succeed_witness :
  exists batches b',
    batch_delete (with_client reliable_client) ["dir/a"; "dir/b"]
      (Mock.world Sample.dir3)
    = (Returns OK,
       {| backend := b';
          calls := ([] ++ map (bulk_delete_call "warehouse") batches)%list;
          bthread := 0%Z |})
    /\ concat batches
       = [{| id_key := "data/dir/a" |}; {| id_key := "data/dir/b" |}]
    /\ length batches = (2 + 999) / 1000
    /\ Forall (fun ids => length ids = 1000) (removelast batches).
Proof.
  apply (batch_delete_all_succeed _ (with_client reliable_client)
           reliable_client ["dir/a"; "dir/b"] (Mock.world Sample.dir3)
           eq_refl).
  intros r b. split; reflexivity.
Defined.

(** ** BRpcService *)

(** X18: [start] registers the internal service and the http service, and
    goes on whatever registering answers.  When the bind address does not
    convert, it answers an internal error that names host [::0] and the
    port, and the server is not started.  Otherwise the server is started
    once, on the converted endpoint, with the given number of threads, or
    with the default options when that number is -1; the answer is OK when
    the server reports 0, and the internal error "start brpc service failed"
    otherwise. *)
Theorem start_answers (T : Type) (env : BRpc.Env T) (port num_threads : Z)
    (st : BRpc.State T) :
  let srv := BRpc.server env in
  let conv := BRpc.str2endpoint env (BRpc.get_service_bind_address env) port in
  let options :=
    if (num_threads =? -1)%Z then BRpc.default_options env
    else {| BRpc.num_threads := num_threads |} in
  let registered :=
    BRpc.Server_add_http_service T srv
      (snd (BRpc.Server_AddService T srv (BRpc.server_state st))) in
  let started := BRpc.Server_Start T srv (snd conv) options registered in
  ((fst conv < 0)%Z ->
   BRpc.start env port num_threads st
   = (InternalError
        ("convert address failed, host=[::0], port="
           ++ BRpc.int_to_string port),
      {| BRpc.server_state := registered;
         BRpc.server_calls :=
           (BRpc.server_calls st
              ++ [BRpc.AddService; BRpc.add_brpc_http_service])%list |}))
  /\ ((0 <= fst conv)%Z ->
      BRpc.start env port num_threads st
      = (if (fst started =? 0)%Z then OK
         else InternalError "start brpc service failed",
         {| BRpc.server_state := snd started;
            BRpc.server_calls :=
              (BRpc.server_calls st
                 ++ [BRpc.AddService; BRpc.add_brpc_http_service;
                     BRpc.Start (snd conv) options])%list |})).
Proof.
  intros srv conv options registered started.
  subst started registered options conv srv.
  unfold BRpc.start, BRpc.called.
  destruct (BRpc.Server_AddService T (BRpc.server env) (BRpc.server_state st))
    as [rc0 s0].
  cbn [fst snd BRpc.server_state BRpc.server_calls].
  destruct (BRpc.str2endpoint env (BRpc.get_service_bind_address env) port)
    as [rc point].
  cbn [fst snd]. split; intros Hrc.
  - apply Z.ltb_lt in Hrc. rewrite Hrc. format_eval.
    rewrite <- app_assoc. reflexivity.
  - apply Z.ltb_ge in Hrc. rewrite Hrc.
    destruct (num_threads =? -1)%Z; cbn [negb];
      destruct (BRpc.Server_Start T (BRpc.server env) point _ _) as [rc1 s1];
      cbn [fst snd BRpc.server_state BRpc.server_calls];
      destruct (rc1 =? 0)%Z; cbn [negb]; rewrite <- !app_assoc; reflexivity.
Qed.

Lemma start_answers_witness :
  BRpc.start BRpc.sample_env (-1) 4 BRpc.fresh
  = (InternalError "convert address failed, host=[::0], port=-1",
     {| BRpc.server_state := (2, false);
        BRpc.server_calls := [BRpc.AddService; BRpc.add_brpc_http_service] |})
  /\ fst (BRpc.start BRpc.sample_env 8060 (-1) BRpc.fresh) = OK.
Proof.
  destruct (start_answers _ BRpc.sample_env (-1) 4 BRpc.fresh)
    as [Hbad _].
  destruct (start_answers _ BRpc.sample_env 8060 (-1) BRpc.fresh)
    as [_ Hgood].
  split.
  - apply Hbad. reflexivity.
  - rewrite Hgood; [reflexivity | discriminate].
Defined.

(** ** delete_directory on any backend *)

Lemma delete_directory_loop_log (B : Type) (fs : S3FileSystem B)
    (client : S3Client B) (pfx : string) (fuel : nat) :
  forall (request : ListObjectsV2Request)
         (delete_request : DeleteObjectsRequest) (w : World B),
    list_bucket request = bucket (_s3_conf fs) ->
    list_prefix request = pfx ->
    objects_bucket delete_request = bucket (_s3_conf fs) ->
    exists issued,
      calls (snd (delete_directory_loop fuel fs client pfx request
                    delete_request w))
      = (calls w ++ issued)%list
      /\ Forall (directory_call (bucket (_s3_conf fs)) pfx) issued.
Proof.
  induction fuel as [|fuel IH]; intros request delete_request w Hb Hp Hd.
  - exists []. cbn. rewrite app_nil_r. split; [reflexivity | constructor].
  - cbn [delete_directory_loop].
    unfold bind, call_ListObjectsV2, call_DeleteObjects, logged, ret.
    destruct (ListObjectsV2 client request (backend w)) as [o b].
    assert (Hlist : directory_call (bucket (_s3_conf fs)) pfx
                      (Call_ListObjectsV2 request)) by (split; assumption).
    destruct (IsSuccess o); cbn [negb];
      [|exists [Call_ListObjectsV2 request]; split;
        [reflexivity | constructor; [exact Hlist | constructor]]].
    destruct (to_identifiers (GetContents (GetResult o))) as [|i ids].
    + destruct (GetIsTruncated (GetResult o));
        [|exists [Call_ListObjectsV2 request]; split;
          [reflexivity | constructor; [exact Hlist | constructor]]].
      destruct (IH (SetContinuationToken request
                      (GetNextContinuationToken (GetResult o)))
                  delete_request
                  {| backend := b;
                     calls := (calls w ++ [Call_ListObjectsV2 request])%list;
                     bthread := bthread w |} Hb Hp Hd)
        as (issued & Hcalls & Hall).
      exists (Call_ListObjectsV2 request :: issued).
      rewrite Hcalls. cbn [calls]. rewrite <- app_assoc.
      split; [reflexivity | constructor; assumption].
    + cbn [backend calls bthread].
      set (dr := SetDelete delete_request
                   {| GetObjects := i :: ids; GetQuiet := true |}).
      assert (Hdel : directory_call (bucket (_s3_conf fs)) pfx
                       (Call_DeleteObjects dr)).
      { subst dr. cbn. repeat split; [exact Hd | discriminate]. }
      destruct (DeleteObjects client dr b) as [d bd].
      assert (Hstop :
        exists issued,
          (calls w ++ [Call_ListObjectsV2 request]
             ++ [Call_DeleteObjects dr])%list
          = (calls w ++ issued)%list
          /\ Forall (directory_call (bucket (_s3_conf fs)) pfx) issued).
      { exists [Call_ListObjectsV2 request; Call_DeleteObjects dr].
        split; [reflexivity|].
        constructor; [exact Hlist | constructor; [exact Hdel | constructor]]. }
      destruct (IsSuccess d); cbn [negb snd calls];
        [|rewrite <- app_assoc; exact Hstop].
      destruct (GetErrors (GetResult d));
        [|cbn [snd calls]; rewrite <- app_assoc; exact Hstop].
      destruct (GetIsTruncated (GetResult o));
        [|cbn [snd calls]; rewrite <- app_assoc; exact Hstop].
      destruct (IH (SetContinuationToken request
                      (GetNextContinuationToken (GetResult o)))
                  dr
                  {| backend := bd;
                     calls :=
                       ((calls w ++ [Call_ListObjectsV2 request])
                          ++ [Call_DeleteObjects dr])%list;
                     bthread := bthread w |} Hb Hp Hd)
        as (issued & Hcalls & Hall).
      exists (Call_ListObjectsV2 request :: Call_DeleteObjects dr :: issued).
      rewrite Hcalls. cbn [calls]. rewrite <- !app_assoc.
      split; [reflexivity|].
      constructor; [exact Hlist | constructor; [exact Hdel | exact Hall]].
Qed.

(** X19: whatever the backend answers and however long it runs, the calls
    that [delete_directory] issues are listings of the directory prefix on
    the bucket and quiet bulk deletes on the bucket that carry at least one
    key: never an empty bulk delete, never a single-object delete, a probe
    or a transfer. *)
Theorem delete_directory_log (B : Type) (fs : S3FileSystem B) (path : Path)
    (fuel : nat) (w : World B) :
  exists issued,
    calls (snd (delete_directory fuel fs path w)) = (calls w ++ issued)%list
    /\ Forall (directory_call (bucket (_s3_conf fs)) (dir_prefix fs path))
              issued.
Proof.
  destruct w as [b cs z].
  unfold delete_directory, delete_directory_impl, bind, bthread_self,
    run_task, ret.
  cbv zeta. cbn [backend calls bthread].
  destruct (get_client fs) as [client|].
  - destruct (z =? 0)%Z; cbn [backend calls bthread].
    + apply delete_directory_loop_log; reflexivity.
    + destruct (delete_directory_loop_log _ fs client (dir_prefix fs path)
                  fuel
                  {| list_bucket := bucket (_s3_conf fs);
                     list_prefix := dir_prefix fs path;
                     list_continuation_token := None |}
                  {| objects_bucket := bucket (_s3_conf fs);
                     GetDelete := no_delete |}
                  {| backend := b; calls := cs; bthread := 0%Z |}
                  eq_refl eq_refl eq_refl)
        as (issued & Hcalls & Hall).
      exists issued. split; [|exact Hall].
      destruct (delete_directory_loop _ _ _ _ _ _ _) as [r w'].
      exact Hcalls.
  - exists []. destruct (z =? 0)%Z; cbn; rewrite app_nil_r;
      (split; [reflexivity | constructor]).
Qed.

(** ** Distinct paths, distinct keys *)

Lemma append_inv_head (s t u : string) : s ++ t = s ++ u -> t = u.
Proof.
  induction s as [|a s IH]; [trivial|].
  cbn. intros H. injection H as H. exact (IH H).
Qed.

Lemma starts_with_split (p r : string) :
  Str.starts_with p r = true -> p = r ++ Str.advance p (String.length r).
Proof.
  unfold Str.starts_with. revert p.
  induction r as [|a r IH]; intros p H; [destruct p; reflexivity|].
  destruct p as [|b p]; [discriminate|].
  rewrite prefix_cons in H. apply andb_prop in H. destruct H as [Hab Hrest].
  apply Ascii.eqb_eq in Hab. subst b.
  cbn [append String.length Str.advance]. f_equal. exact (IH _ Hrest).
Qed.

(** X20: two different paths without NUL characters that are both
    relative, or both under the root, get different keys. *)
Theorem get_key_injective (B : Type) (fs : S3FileSystem B) (p q : Path) :
  Str.nul_free p ->
  Str.nul_free q ->
  Str.starts_with p (_root_path fs) = Str.starts_with q (_root_path fs) ->
  p <> q ->
  get_key fs p <> get_key fs q.
Proof.
  intros Hp Hq Hkind Hneq Hkey. apply Hneq.
  rewrite !get_key_eq, <- Hkind in Hkey.
  apply append_inv_head in Hkey. apply (append_inv_head "/") in Hkey.
  destruct (Str.starts_with p (_root_path fs)) eqn:Ep.
  - symmetry in Hkind.
    rewrite !c_str_advance in Hkey by assumption.
    rewrite (starts_with_split _ _ Ep), (starts_with_split _ _ Hkind), Hkey.
    reflexivity.
  - exact Hkey.
Qed.

Lemma get_key_injective_witness :
  get_key Mock.fs "dir/a" <> get_key Mock.fs "dir/b"
  /\ get_key Mock.fs "s3.example.com/warehouse/data/a"
     <> get_key Mock.fs "s3.example.com/warehouse/data/b".
Proof.
  split.
  - apply (get_key_injective _ Mock.fs "dir/a" "dir/b" eq_refl eq_refl
             eq_refl).
    discriminate.
  - apply (get_key_injective _ Mock.fs "s3.example.com/warehouse/data/a"
             "s3.example.com/warehouse/data/b" eq_refl eq_refl eq_refl).
    discriminate.
Defined.
